(** * The cpp-project fixture of claude-lsp-cli

    The directory [src/examples/cpp-project] holds four C++ files that are
    ill-formed on purpose: two variants of the header [User.h], the member
    definitions [src/User.cpp] and the entry point [src/main.cpp].

    - The declarations, definitions and statements of the four files are
      transcribed as data, construct by construct, with the line each
      statement stands on; [src/User.cpp] is kept as text as well, so
      that line numbers can be read off the file.
    - The rules of C++ the files break (member lookup through [this->],
      the operand of [delete], the agreement of a definition with its
      declaration, the arity of a constructor call) are executable checks
      over that data.
    - What [main] does to the object its [std::unique_ptr] owns is given
      by an interpreter that logs the creation, deletion and use of that
      object, runs the destructors of the variables of a scope that is
      left, and stops where the behaviour becomes undefined (use or
      deletion of an object already deleted).
    - The member functions of [User] whose bodies compute something (the
      two constructors, the getters, [setAge]) are Rocq functions over a
      record. *)

From Stdlib Require Import ZArith List String Ascii Bool Arith Lia.
Import ListNotations.
Open Scope string_scope.
Set Warnings "-register-all".

(* ================================================================== *)
(** ** Syntax of the fragment of C++ the four files use *)

Module Cpp.

(** Types as they are spelled in the sources. *)
Inductive ctype : Type :=
| TVoid
| TInt
| TFloat
| TAuto
| TNamed (name : string)                 (* std::string, User, Database *)
| TApp (template : string) (arg : ctype) (* std::vector<User> *)
| TConst (t : ctype)                     (* const T *)
| TRef (t : ctype)                       (* T& *)
| TPtr (t : ctype).                      (* T* *)

Fixpoint ctype_eqb (a b : ctype) : bool :=
  match a, b with
  | TVoid, TVoid | TInt, TInt | TFloat, TFloat | TAuto, TAuto => true
  | TNamed x, TNamed y => String.eqb x y
  | TApp f x, TApp g y => String.eqb f g && ctype_eqb x y
  | TConst x, TConst y | TRef x, TRef y | TPtr x, TPtr y => ctype_eqb x y
  | _, _ => false
  end.

Definition is_pointer (t : ctype) : bool :=
  match t with TPtr _ => true | _ => false end.

(** [const std::string&], the type of three constructor parameters. *)
Definition string_cref : ctype := TRef (TConst (TNamed "std::string")).

Inductive unop : Type := OpNot.
Inductive binop : Type := OpShl | OpLt | OpAdd.
Inductive access : Type := Dot | Arrow.

Inductive expr : Type :=
| EInt (z : Z)
| EStr (s : string)
| EBool (b : bool)
| EVar (x : string)                                   (* identifier *)
| EThis                                               (* this *)
| EMember (obj : expr) (a : access) (m : string)      (* obj.m, obj->m *)
| EMethod (obj : expr) (a : access) (m : string) (args : list expr)
                                                      (* obj.m(args), obj->m(args) *)
| ECall (f : string) (args : list expr)               (* f(args) *)
| EConstruct (t : ctype) (args : list expr)           (* T(args) *)
| EMakeUnique (t : ctype) (args : list expr)          (* std::make_unique<T>(args) *)
| EUn (op : unop) (e : expr)
| EBin (op : binop) (l r : expr)
| EAssign (lhs rhs : expr).                           (* lhs = rhs *)

(** The three forms of initialiser of a local declaration. *)
Inductive init : Type :=
| InitNone                       (* T x;        *)
| InitCopy (e : expr)            (* T x = e;    *)
| InitArgs (args : list expr).   (* T x(args);  *)

(** Statements; the first argument of each is the line of the file the
    statement starts on. *)
Inductive stmt : Type :=
| SExpr (line : nat) (e : expr)
| SDecl (line : nat) (t : ctype) (x : string) (i : init)
| SDelete (line : nat) (e : expr)
| SIf (line : nat) (cond : expr) (thn : list stmt)
| SRangeFor (line : nat) (t : ctype) (x : string) (range : expr) (body : list stmt)
| SReturn (line : nat) (e : expr).

Definition stmt_line (s : stmt) : nat :=
  match s with
  | SExpr l _ | SDecl l _ _ _ | SDelete l _ | SIf l _ _
  | SRangeFor l _ _ _ _ | SReturn l _ => l
  end.

Definition param : Type := (ctype * string)%type.

(** A member function as a class body declares it. *)
Inductive member_decl : Type :=
| MCtor (params : list param)                  (* C(params);  *)
| MDtor                                        (* ~C();       *)
| MMethod (is_static : bool) (ret : ctype) (name : string)
          (params : list param) (is_const : bool).

Record field_decl : Type := mkField { f_type : ctype; f_name : string }.

Record class_decl : Type := mkClass {
  c_name : string;
  c_fields : list field_decl;      (* the private: section *)
  c_members : list member_decl     (* the public: section  *)
}.

(** A member function as it is defined out of line, [C::f(...) { ... }];
    [line] is the line of its signature. *)
Inductive member_def : Type :=
| DCtor (line : nat) (params : list param)
        (inits : list (string * expr)) (body : list stmt)
| DDtor (line : nat) (body : list stmt)
| DMethod (line : nat) (ret : ctype) (name : string) (params : list param)
          (is_const : bool) (body : list stmt).

Definition def_body (d : member_def) : list stmt :=
  match d with
  | DCtor _ _ _ b | DDtor _ b | DMethod _ _ _ _ _ b => b
  end.

Definition def_inits (d : member_def) : list (string * expr) :=
  match d with
  | DCtor _ _ i _ => i
  | DDtor _ _ | DMethod _ _ _ _ _ _ => []
  end.

Definition def_params (d : member_def) : list param :=
  match d with
  | DCtor _ p _ _ | DMethod _ _ _ p _ _ => p
  | DDtor _ _ => []
  end.

Definition param_types (ps : list param) : list ctype := map fst ps.

Fixpoint ctypes_eqb (a b : list ctype) : bool :=
  match a, b with
  | [], [] => true
  | x :: a', y :: b' => ctype_eqb x y && ctypes_eqb a' b'
  | _, _ => false
  end.

End Cpp.
Import Cpp.

(* ================================================================== *)
(** ** include/User.h *)

Module IncludeUserH.

Definition User : class_decl := {|
  c_name := "User";
  c_fields :=
    [ mkField (TNamed "std::string") "firstName";
      mkField (TNamed "std::string") "lastName";
      mkField TInt "age";
      mkField (TNamed "std::string") "email" ];
  c_members :=
    [ MCtor [ (string_cref, "first"); (string_cref, "last");
              (TInt, "userAge"); (string_cref, "userEmail") ];
      MCtor [ (TRef (TConst (TNamed "User")), "other") ];
      MDtor;
      MMethod false (TNamed "std::string") "getName" [] true;
      MMethod false (TNamed "std::string") "getEmail" [] true;
      MMethod false TInt "getAge" [] true;
      MMethod false TVoid "setAge" [ (TFloat, "newAge") ] false;
      MMethod false (TNamed "std::string") "getFullName" [] false;
      MMethod true (TNamed "User") "createDefaultUser" [] false ]
|}.

End IncludeUserH.

(* ================================================================== *)
(** ** src/User.h *)

Module SrcUserH.

Definition User : class_decl := {|
  c_name := "User";
  c_fields :=
    [ mkField (TNamed "std::string") "firstName";
      mkField (TNamed "std::string") "lastName";
      mkField TInt "age";
      mkField (TNamed "std::string") "email" ];
  c_members :=
    [ MCtor [ (string_cref, "first"); (string_cref, "last");
              (TInt, "userAge"); (string_cref, "userEmail") ];
      MMethod false (TNamed "std::string") "getName" [] true ]
|}.

End SrcUserH.

(** The two declarations of class [User] in the project. *)
Definition User_headers : list class_decl := [ IncludeUserH.User; SrcUserH.User ].

(* ================================================================== *)
(** ** src/User.cpp *)

Module UserCpp.

(** The double-quote character, spelled by its code. *)
Definition dq : string := String (ascii_of_nat 34) EmptyString.

(** The file as text, one string per line, in order. *)
Definition text : list string :=
  [
    (*  1 *) "#include " ++ dq ++ "User.h" ++ dq;
    (*  2 *) "#include <sstream>";
    (*  3 *) EmptyString;
    (*  4 *) "User::User(const std::string& first, const std::string& last, int userAge, const std::string& userEmail)";
    (*  5 *) "    : firstName(first), lastName(last), age(userAge), email(userEmail) {";
    (*  6 *) "    // Error: accessing undefined member";
    (*  7 *) "    this->id = generateId(); // id doesn't exist in class";
    (*  8 *) "}";
    (*  9 *) EmptyString;
    (* 10 *) "User::User(const User& other) ";
    (* 11 *) "    : firstName(other.firstName), lastName(other.lastName), age(other.age) {";
    (* 12 *) "    // Error: missing email in copy constructor";
    (* 13 *) "    // email is not copied";
    (* 14 *) "}";
    (* 15 *) EmptyString;
    (* 16 *) "User::~User() {";
    (* 17 *) "    // Error: trying to delete non-pointer member";
    (* 18 *) "    delete firstName; // firstName is not a pointer";
    (* 19 *) "}";
    (* 20 *) EmptyString;
    (* 21 *) "std::string User::getName() const {";
    (* 22 *) "    return firstName;";
    (* 23 *) "}";
    (* 24 *) EmptyString;
    (* 25 *) "std::string User::getEmail() const {";
    (* 26 *) "    return email;";
    (* 27 *) "}";
    (* 28 *) EmptyString;
    (* 29 *) "int User::getAge() const {";
    (* 30 *) "    return age;";
    (* 31 *) "}";
    (* 32 *) EmptyString;
    (* 33 *) "// Error: parameter type mismatch with declaration";
    (* 34 *) "void User::setAge(int newAge) { // Declaration says float";
    (* 35 *) "    if (newAge < 0) {";
    (* 36 *) "        // Error: accessing undefined member";
    (* 37 *) "        this->isValid = false;";
    (* 38 *) "    }";
    (* 39 *) "    age = newAge;";
    (* 40 *) "}";
    (* 41 *) EmptyString;
    (* 42 *) "// Error: missing const qualifier (declared as non-const)";
    (* 43 *) "std::string User::getFullName() const {";
    (* 44 *) "    return firstName + " ++ dq ++ " " ++ dq ++ " + lastName;";
    (* 45 *) "}";
    (* 46 *) EmptyString;
    (* 47 *) "// Error: return type mismatch";
    (* 48 *) "int User::createDefaultUser() { // Should return User";
    (* 49 *) "    return User(" ++ dq ++ "Default" ++ dq ++ ", " ++ dq ++ "User" ++ dq ++ ", 0, " ++ dq ++ "default@example.com" ++ dq ++ ");";
    (* 50 *) "}"
  ].

(** [User::User(const std::string&, const std::string&, int, const std::string&)],
    lines 4 to 8. *)
Definition ctor4 : member_def :=
  DCtor 4
    [ (string_cref, "first"); (string_cref, "last");
      (TInt, "userAge"); (string_cref, "userEmail") ]
    [ ("firstName", EVar "first"); ("lastName", EVar "last");
      ("age", EVar "userAge"); ("email", EVar "userEmail") ]
    [ SExpr 7 (EAssign (EMember EThis Arrow "id") (ECall "generateId" [])) ].

(** [User::User(const User& other)], lines 10 to 14. *)
Definition copy_ctor : member_def :=
  DCtor 10
    [ (TRef (TConst (TNamed "User")), "other") ]
    [ ("firstName", EMember (EVar "other") Dot "firstName");
      ("lastName", EMember (EVar "other") Dot "lastName");
      ("age", EMember (EVar "other") Dot "age") ]
    [].

(** [User::~User()], lines 16 to 19. *)
Definition dtor : member_def :=
  DDtor 16 [ SDelete 18 (EVar "firstName") ].

Definition getName : member_def :=
  DMethod 21 (TNamed "std::string") "getName" [] true
    [ SReturn 22 (EVar "firstName") ].

Definition getEmail : member_def :=
  DMethod 25 (TNamed "std::string") "getEmail" [] true
    [ SReturn 26 (EVar "email") ].

Definition getAge : member_def :=
  DMethod 29 TInt "getAge" [] true
    [ SReturn 30 (EVar "age") ].

Definition setAge : member_def :=
  DMethod 34 TVoid "setAge" [ (TInt, "newAge") ] false
    [ SIf 35 (EBin OpLt (EVar "newAge") (EInt 0))
        [ SExpr 37 (EAssign (EMember EThis Arrow "isValid") (EBool false)) ];
      SExpr 39 (EAssign (EVar "age") (EVar "newAge")) ].

Definition getFullName : member_def :=
  DMethod 43 (TNamed "std::string") "getFullName" [] true
    [ SReturn 44 (EBin OpAdd (EBin OpAdd (EVar "firstName") (EStr " "))
                             (EVar "lastName")) ].

Definition createDefaultUser : member_def :=
  DMethod 48 TInt "createDefaultUser" [] false
    [ SReturn 49 (EConstruct (TNamed "User")
                    [ EStr "Default"; EStr "User"; EInt 0;
                      EStr "default@example.com" ]) ].

(** The definitions of the file, in order. *)
Definition defs : list member_def :=
  [ ctor4; copy_ctor; dtor; getName; getEmail; getAge; setAge;
    getFullName; createDefaultUser ].

End UserCpp.

(* ================================================================== *)
(** ** src/main.cpp *)

Module MainCpp.

Definition cout : expr := EVar "std::cout".
Definition cerr : expr := EVar "std::cerr".
Definition endl : expr := EVar "std::endl".
Definition shl (l r : expr) : expr := EBin OpShl l r.

(** The body of [int main()], lines 8 to 44. *)
Definition main_body : list stmt :=
  [ SExpr 10 (shl (shl (shl cout (EStr "Starting application: "))
                       (EVar "undefinedVersion")) endl);
    SDecl 13 (TNamed "std::string") "port" (InitCopy (EInt 8080));
    SDecl 15 (TNamed "Database") "db" InitNone;
    SIf 18 (EUn OpNot (EMethod (EVar "db") Dot "initialize" []))
      [ SExpr 19 (shl (shl cerr (EStr "Failed to initialize database")) endl);
        SReturn 20 (EInt 1) ];
    SDecl 23 (TApp "std::vector" (TNamed "User")) "users" InitNone;
    SDecl 26 (TNamed "User") "user1"
      (InitArgs [ EStr "John"; EStr "Doe"; EInt 25; EStr "invalid@email" ]);
    SDecl 27 (TNamed "User") "user2"
      (InitArgs [ EStr "Jane"; EStr "Smith" ]);
    SExpr 29 (EMethod (EVar "users") Dot "push_back" [ EVar "user1" ]);
    SExpr 30 (EMethod (EVar "users") Dot "push_back" [ EVar "user2" ]);
    SRangeFor 33 (TRef (TConst TAuto)) "user" (EVar "users")
      [ SExpr 34
          (shl (shl (shl (shl (shl cout (EStr "User: "))
                              (EMethod (EVar "user") Dot "getFullName" []))
                         (EStr ", Age: "))
                    (EMember (EVar "user") Dot "birthYear"))
               endl) ];
    SDecl 39 TAuto "userPtr"
      (InitCopy (EMakeUnique (TNamed "User")
                   [ EStr "Test"; EStr "User"; EInt 30;
                     EStr "test@example.com" ]));
    SDelete 40 (EMethod (EVar "userPtr") Dot "get" []);
    SExpr 41 (shl (shl cout (EMethod (EVar "userPtr") Arrow "getName" [])) endl);
    SReturn 43 (EInt 0) ].

End MainCpp.

(* ================================================================== *)
(** ** The rules of C++ that the fixture breaks, as checks *)

Module Check.

(** *** Member lookup *)

Definition field_names (c : class_decl) : list string :=
  map f_name (c_fields c).

Definition method_name (m : member_decl) : option string :=
  match m with
  | MMethod _ _ n _ _ => Some n
  | MCtor _ | MDtor => None
  end.

Definition method_names (c : class_decl) : list string :=
  flat_map (fun m => match method_name m with Some n => [n] | None => [] end)
           (c_members c).

Definition mem (x : string) (l : list string) : bool :=
  existsb (String.eqb x) l.

(** [this->m] names a member when [m] is a data member or a member
    function of the class. *)
Definition declares_member (c : class_decl) (m : string) : bool :=
  mem m (field_names c) || mem m (method_names c).

Definition declares_method (c : class_decl) (m : string) : bool :=
  mem m (method_names c).

Definition field_type (c : class_decl) (x : string) : option ctype :=
  option_map f_type (find (fun f => String.eqb (f_name f) x) (c_fields c)).

(** The members reached through [this->] in an expression, left to right. *)
Fixpoint this_members (e : expr) : list string :=
  match e with
  | EInt _ | EStr _ | EBool _ | EVar _ | EThis => []
  | EMember obj a m =>
      match obj, a with
      | EThis, Arrow => [m]
      | _, _ => this_members obj
      end
  | EMethod obj a m args =>
      match obj, a with
      | EThis, Arrow => [m]
      | _, _ => this_members obj
      end ++ flat_map this_members args
  | ECall _ args | EConstruct _ args | EMakeUnique _ args =>
      flat_map this_members args
  | EUn _ e1 => this_members e1
  | EBin _ l r => this_members l ++ this_members r
  | EAssign l r => this_members l ++ this_members r
  end.

Definition init_exprs (i : init) : list expr :=
  match i with
  | InitNone => []
  | InitCopy e => [e]
  | InitArgs args => args
  end.

(** The same for a statement, each access with the line it is on. *)
Fixpoint stmt_this_members (s : stmt) : list (nat * string) :=
  match s with
  | SExpr l e | SDelete l e | SReturn l e => map (pair l) (this_members e)
  | SDecl l _ _ i => map (pair l) (flat_map this_members (init_exprs i))
  | SIf l c thn =>
      map (pair l) (this_members c) ++ flat_map stmt_this_members thn
  | SRangeFor l _ _ r body =>
      map (pair l) (this_members r) ++ flat_map stmt_this_members body
  end.

(** The accesses [this->m] of a definition whose [m] the class does not
    declare: each is an error of the translation unit. *)
Definition undeclared_accesses (c : class_decl) (d : member_def)
  : list (nat * string) :=
  filter (fun a => negb (declares_member c (snd a)))
         (flat_map stmt_this_members (def_body d)).

Definition member_lookup_ok (c : class_decl) (d : member_def) : bool :=
  match undeclared_accesses c d with
  | [] => true
  | _ :: _ => false
  end.

(** *** Lines of the text *)

(** [contains needle s]: [needle] occurs in [s]. *)
Fixpoint contains (needle s : string) : bool :=
  String.prefix needle s
  || match s with
     | EmptyString => false
     | String _ rest => contains needle rest
     end.

(** Line [n] of a text, counted from 1 as editors and compilers do. *)
Definition line_at (text : list string) (n : nat) : option string :=
  match n with
  | O => None
  | S k => nth_error text k
  end.

Fixpoint lines_from (n : nat) (needle : string) (text : list string)
  : list nat :=
  match text with
  | [] => []
  | l :: rest =>
      (if contains needle l then [n] else [])
      ++ lines_from (S n) needle rest
  end.

(** The numbers of the lines in which [needle] occurs. *)
Definition lines_containing (needle : string) (text : list string)
  : list nat :=
  lines_from 1 needle text.

(** *** Operand of [delete] *)

(** The type of a name used inside a member function: a parameter hides
    a data member of the same name. *)
Definition name_type (c : class_decl) (ps : list param) (x : string)
  : option ctype :=
  match find (fun p => String.eqb (snd p) x) ps with
  | Some p => Some (fst p)
  | None => field_type c x
  end.

(** Types of the operands this development needs: names and [this->m]. *)
Definition operand_type (c : class_decl) (ps : list param) (e : expr)
  : option ctype :=
  match e with
  | EVar x => name_type c ps x
  | EMember EThis Arrow m => field_type c m
  | _ => None
  end.

(** The operands of the [delete] statements of a body, with their lines. *)
Fixpoint stmt_deletes (s : stmt) : list (nat * expr) :=
  match s with
  | SDelete l e => [(l, e)]
  | SIf _ _ body | SRangeFor _ _ _ _ body => flat_map stmt_deletes body
  | SExpr _ _ | SDecl _ _ _ _ | SReturn _ _ => []
  end.

Definition def_deletes (d : member_def) : list (nat * expr) :=
  flat_map stmt_deletes (def_body d).

(** The [delete] statements of a definition whose operand has a type
    that is not a pointer. *)
Definition non_pointer_deletes (c : class_decl) (d : member_def)
  : list (nat * expr) :=
  filter (fun le =>
            match operand_type c (def_params d) (snd le) with
            | Some t => negb (is_pointer t)
            | None => false
            end)
         (def_deletes d).

(** *** Agreement of a definition with its declaration *)

Record signature : Type := mkSig {
  s_ret : ctype;
  s_params : list ctype;
  s_const : bool
}.

Definition signature_eqb (a b : signature) : bool :=
  ctype_eqb (s_ret a) (s_ret b)
  && ctypes_eqb (s_params a) (s_params b)
  && Bool.eqb (s_const a) (s_const b).

Definition find_decl (c : class_decl) (name : string) : option member_decl :=
  find (fun m => match method_name m with
                 | Some n => String.eqb n name
                 | None => false
                 end)
       (c_members c).

Definition find_def (ds : list member_def) (name : string) : option member_def :=
  find (fun d => match d with
                 | DMethod _ _ n _ _ _ => String.eqb n name
                 | DCtor _ _ _ _ | DDtor _ _ => false
                 end)
       ds.

Definition decl_signature (m : member_decl) : option signature :=
  match m with
  | MMethod _ r _ ps k => Some (mkSig r (param_types ps) k)
  | MCtor _ | MDtor => None
  end.

Definition def_signature (d : member_def) : option signature :=
  match d with
  | DMethod _ r _ ps k _ => Some (mkSig r (param_types ps) k)
  | DCtor _ _ _ _ | DDtor _ _ => None
  end.

(** The signature class [c] declares for [name] and the one [ds] defines. *)
Definition declared_signature (c : class_decl) (name : string) : option signature :=
  match find_decl c name with
  | Some m => decl_signature m
  | None => None
  end.

Definition defined_signature (ds : list member_def) (name : string) : option signature :=
  match find_def ds name with
  | Some d => def_signature d
  | None => None
  end.

Definition declared_static (c : class_decl) (name : string) : option bool :=
  match find_decl c name with
  | Some (MMethod s _ _ _ _) => Some s
  | _ => None
  end.

(** The expressions a body returns, top-level statements first. *)
Fixpoint stmt_returns (s : stmt) : list expr :=
  match s with
  | SReturn _ e => [e]
  | SIf _ _ body | SRangeFor _ _ _ _ body => flat_map stmt_returns body
  | SExpr _ _ | SDecl _ _ _ _ | SDelete _ _ => []
  end.

Definition def_returns (d : member_def) : list expr :=
  flat_map stmt_returns (def_body d).

(** *** Constructors *)

Definition is_copy_ctor (c : class_decl) (m : member_decl) : bool :=
  match m with
  | MCtor [ (TRef (TConst (TNamed n)), _) ] => String.eqb n (c_name c)
  | _ => false
  end.

Definition is_ctor (m : member_decl) : bool :=
  match m with MCtor _ => true | _ => false end.

Definition is_dtor (m : member_decl) : bool :=
  match m with MDtor => true | _ => false end.

Definition ctor_arity (m : member_decl) : option nat :=
  match m with
  | MCtor ps => Some (List.length ps)
  | _ => None
  end.

Definition declares_copy_ctor (c : class_decl) : bool :=
  existsb (is_copy_ctor c) (c_members c).

Definition declares_dtor (c : class_decl) : bool :=
  existsb is_dtor (c_members c).

(** The constructors a class declares, the copy constructor apart. *)
Definition noncopy_ctors (c : class_decl) : list member_decl :=
  filter (fun m => is_ctor m && negb (is_copy_ctor c m)) (c_members c).

(** The numbers of arguments the declared constructors accept; none of
    the headers gives a parameter a default argument. *)
Definition ctor_arities (c : class_decl) : list nat :=
  flat_map (fun m => match ctor_arity m with Some n => [n] | None => [] end)
           (c_members c).

(** The objects of class [cls] a statement list constructs with
    parenthesised arguments: line, variable, arguments. *)
Fixpoint stmt_constructions (cls : string) (s : stmt)
  : list (nat * string * list expr) :=
  match s with
  | SDecl l (TNamed n) x (InitArgs args) =>
      if String.eqb n cls then [(l, x, args)] else []
  | SIf _ _ body | SRangeFor _ _ _ _ body =>
      flat_map (stmt_constructions cls) body
  | _ => []
  end.

Definition constructions (cls : string) (body : list stmt)
  : list (nat * string * list expr) :=
  flat_map (stmt_constructions cls) body.

(** Those whose number of arguments no declared constructor accepts. *)
Definition arity_mismatches (c : class_decl) (body : list stmt)
  : list (nat * string * list expr) :=
  filter (fun k => negb (existsb (Nat.eqb (List.length (snd k))) (ctor_arities c)))
         (constructions (c_name c) body).

(** *** Lines of the transcription *)

Definition def_line (d : member_def) : nat :=
  match d with
  | DCtor l _ _ _ | DDtor l _ | DMethod l _ _ _ _ _ => l
  end.

(** A statement and the statements nested in it. *)
Fixpoint stmt_flatten (s : stmt) : list stmt :=
  s :: match s with
       | SIf _ _ body | SRangeFor _ _ _ _ body => flat_map stmt_flatten body
       | SExpr _ _ | SDecl _ _ _ _ | SDelete _ _ | SReturn _ _ => []
       end.

(** A piece of text that the line of a statement has to show. *)
Definition stmt_token (s : stmt) : string :=
  match s with
  | SExpr _ (EAssign (EMember EThis Arrow m) _) => "this->" ++ m ++ " = "
  | SExpr _ (EAssign (EVar x) _) => x ++ " = "
  | SExpr _ _ => ";"
  | SDecl _ _ x _ => x
  | SDelete _ (EVar x) => "delete " ++ x ++ ";"
  | SDelete _ _ => "delete "
  | SIf _ _ _ => "if ("
  | SRangeFor _ _ _ _ _ => "for ("
  | SReturn _ _ => "return "
  end.

Definition line_has (text : list string) (n : nat) (tok : string) : bool :=
  match line_at text n with
  | Some s => contains tok s
  | None => false
  end.

End Check.

(* ================================================================== *)
(** ** What [main] does to the object its [unique_ptr] owns *)

Module Exec.

(** Values, as far as the memory operations of [main] depend on them. *)
Inductive value : Type :=
| VInt (z : Z)
| VBool (b : bool)
| VObject (cls : string)   (* an object of a class type *)
| VVector (n : nat)        (* a std::vector of n elements *)
| VUnique (l : nat)        (* a std::unique_ptr that owns object l *)
| VRaw (l : nat)           (* a raw pointer to object l *)
| VUnknown.

Inductive event : Type :=
| EvMakeUnique (l : nat)            (* std::make_unique creates object l *)
| EvDelete (l : nat)                (* object l is deleted *)
| EvArrow (l : nat) (m : string).   (* p->m, p pointing to l *)

(** The two ways in which the behaviour of a run becomes undefined. *)
Inductive fault : Type :=
| UseAfterDelete (l : nat)      (* p->m on an object already deleted *)
| DoubleDelete (l : nat).       (* delete of an object already deleted *)

Record state : Type := mkState {
  next : nat;                       (* the next object to create *)
  env : list (string * value);      (* the variables in scope, the last
                                       declared first *)
  deleted : list nat;               (* the objects deleted so far *)
  log : list event;                 (* the events so far, oldest first *)
  undefined : option fault          (* set where the behaviour of the run
                                       stops being defined *)
}.

Definition init_state : state := mkState 0 [] [] [] None.

Fixpoint lookup (x : string) (e : list (string * value)) : value :=
  match e with
  | [] => VUnknown
  | (y, v) :: rest => if String.eqb x y then v else lookup x rest
  end.

(** The innermost variable [x] gets value [v]; nothing changes when no
    variable [x] is in scope. *)
Fixpoint update (x : string) (v : value) (e : list (string * value))
  : list (string * value) :=
  match e with
  | [] => []
  | (y, w) :: rest =>
      if String.eqb x y then (x, v) :: rest else (y, w) :: update x v rest
  end.

(** Once the behaviour is undefined the state is left as it is: the
    operations below act on a state with defined behaviour only. *)
Definition defined (st : state) : bool :=
  match undefined st with
  | None => true
  | Some _ => false
  end.

Definition set_var (x : string) (v : value) (st : state) : state :=
  if defined st
  then mkState (next st) (update x v (env st)) (deleted st) (log st) None
  else st.

Definition declare (x : string) (v : value) (st : state) : state :=
  if defined st
  then mkState (next st) ((x, v) :: env st) (deleted st) (log st) None
  else st.

Definition emit (ev : event) (st : state) : state :=
  if defined st
  then mkState (next st) (env st) (deleted st) (log st ++ [ev]) None
  else st.

Definition raise (f : fault) (st : state) : state :=
  if defined st
  then mkState (next st) (env st) (deleted st) (log st) (Some f)
  else st.

Definition is_deleted (l : nat) (st : state) : bool :=
  existsb (Nat.eqb l) (deleted st).

(** [std::make_unique]: a new object, and its number. *)
Definition make_unique (st : state) : nat * state :=
  (next st,
   if defined st
   then mkState (S (next st)) (env st) (deleted st)
                (log st ++ [EvMakeUnique (next st)]) None
   else st).

(** [p->m] with [p] pointing to [l]: undefined if [l] has been deleted. *)
Definition arrow (l : nat) (m : string) (st : state) : state :=
  let st1 := emit (EvArrow l m) st in
  if is_deleted l st then raise (UseAfterDelete l) st1 else st1.

(** [delete p] with [p] pointing to [l]: undefined if [l] has been
    deleted before. *)
Definition delete (l : nat) (st : state) : state :=
  let st1 := emit (EvDelete l) st in
  if is_deleted l st
  then raise (DoubleDelete l) st1
  else if defined st1
       then mkState (next st1) (env st1) (l :: deleted st1) (log st1) None
       else st1.

(** The destructor of a variable: [~unique_ptr] deletes the object the
    pointer owns; a raw pointer owns nothing, and the destructors of the
    other values do not reach an object made by [std::make_unique]. *)
Definition destroy (v : value) (st : state) : state :=
  match v with
  | VUnique l => delete l st
  | _ => st
  end.

(** Leaving a scope that declared [k] variables: they are destroyed in
    the reverse order of their declaration and are no longer in scope. *)
Fixpoint leave (k : nat) (st : state) : state :=
  match k with
  | O => st
  | S k' =>
      if defined st
      then match env st with
           | [] => st
           | (_, v) :: rest =>
               leave k' (destroy v (mkState (next st) rest (deleted st)
                                            (log st) None))
           end
      else st
  end.

(** The value of a variable declared without initialiser. *)
Definition default_value (t : ctype) : value :=
  match t with
  | TNamed c => VObject c
  | TApp "std::vector" _ => VVector 0
  | _ => VUnknown
  end.

Inductive outcome : Type :=
| Running (st : state)                  (* fell through *)
| Returned (v : value) (st : state)     (* executed a return *)
| Stuck (line : nat) (st : state)       (* a condition or range without value *)
| Undefined (line : nat) (f : fault) (st : state).
                                        (* undefined behaviour on that line *)

Definition final_state (o : outcome) : state :=
  match o with
  | Running st | Returned _ st | Stuck _ st | Undefined _ _ st => st
  end.

Definition trace (o : outcome) : list event := log (final_state o).

(** Go on with [k] unless the behaviour has become undefined, on [line]. *)
Definition check (line : nat) (st : state) (k : state -> outcome) : outcome :=
  match undefined st with
  | Some f => Undefined line f st
  | None => k st
  end.

(** Run [body] as a block: what it declares is destroyed where it ends. *)
Definition scoped (line : nat) (body : state -> outcome) (st : state)
  : outcome :=
  match body st with
  | Running st1 =>
      check line (leave (List.length (env st1) - List.length (env st)) st1)
            Running
  | o => o
  end.

Fixpoint iterate (n : nat) (body : state -> outcome) (st : state) : outcome :=
  match n with
  | O => Running st
  | S k =>
      match body st with
      | Running st1 => iterate k body st1
      | o => o
      end
  end.

Section Run.

(** [Database.h] is not part of the project: what [db.initialize()]
    returns is a parameter of the run. *)
Variable db_initialize : bool.

(** [obj.m(...)] and [obj->m(...)] once [obj] has value [v]; [target]
    is the variable [obj] names, if it is one. *)
Definition call_method (target : option string) (v : value) (a : access)
           (m : string) (st : state) : value * state :=
  match v, a with
  | VUnique l, Dot =>
      if String.eqb m "get" then (VRaw l, st) else (VUnknown, st)
  | VUnique l, Arrow | VRaw l, Arrow => (VUnknown, arrow l m st)
  | VVector n, Dot =>
      match target with
      | Some x =>
          if String.eqb m "push_back"
          then (VUnknown, set_var x (VVector (S n)) st)
          else (VUnknown, st)
      | None => (VUnknown, st)
      end
  | VObject cls, Dot =>
      if String.eqb cls "Database" && String.eqb m "initialize"
      then (VBool db_initialize, st)
      else (VUnknown, st)
  | _, _ => (VUnknown, st)
  end.

Definition access_member (v : value) (a : access) (m : string) (st : state)
  : state :=
  match v, a with
  | VUnique l, Arrow | VRaw l, Arrow => arrow l m st
  | _, _ => st
  end.

Definition var_of (e : expr) : option string :=
  match e with EVar x => Some x | _ => None end.

Definition binop_value (op : binop) (a b : value) : value :=
  match op, a, b with
  | OpLt, VInt x, VInt y => VBool (x <? y)%Z
  | _, _, _ => VUnknown
  end.

(** Operands are evaluated left to right, the object of a call before
    its arguments, the right side of an assignment before the left. *)
Fixpoint eval (e : expr) (st : state) {struct e} : value * state :=
  let eval_args :=
    fix go (es : list expr) (st : state) {struct es} : state :=
      match es with
      | [] => st
      | e1 :: rest => go rest (snd (eval e1 st))
      end in
  match e with
  | EInt z => (VInt z, st)
  | EBool b => (VBool b, st)
  | EStr _ | EThis => (VUnknown, st)
  | EVar x => (lookup x (env st), st)
  | EMember obj a m =>
      let (v, st1) := eval obj st in
      (VUnknown, access_member v a m st1)
  | EMethod obj a m args =>
      let (v, st1) := eval obj st in
      call_method (var_of obj) v a m (eval_args args st1)
  | ECall _ args => (VUnknown, eval_args args st)
  | EConstruct t args => (default_value t, eval_args args st)
  | EMakeUnique _ args =>
      let (l, st1) := make_unique (eval_args args st) in (VUnique l, st1)
  | EUn OpNot e1 =>
      let (v, st1) := eval e1 st in
      (match v with VBool b => VBool (negb b) | _ => VUnknown end, st1)
  | EBin op l r =>
      let (a, st1) := eval l st in
      let (b, st2) := eval r st1 in
      (binop_value op a b, st2)
  | EAssign lhs rhs =>
      let (v, st1) := eval rhs st in
      let (_, st2) := eval lhs st1 in
      (v, match var_of lhs with
          | Some x => set_var x v st2
          | None => st2
          end)
  end.

Fixpoint eval_list (es : list expr) (st : state) : state :=
  match es with
  | [] => st
  | e1 :: rest => eval_list rest (snd (eval e1 st))
  end.

(** A [return] leaves every scope of the function: all the variables in
    scope are destroyed before the function has returned. *)
Definition do_return (line : nat) (v : value) (st : state) : outcome :=
  check line (leave (List.length (env st)) st) (Returned v).

Fixpoint exec (s : stmt) (st : state) {struct s} : outcome :=
  let block :=
    fix go (ss : list stmt) (st : state) {struct ss} : outcome :=
      match ss with
      | [] => Running st
      | s1 :: rest =>
          match exec s1 st with
          | Running st1 => go rest st1
          | o => o
          end
      end in
  match s with
  | SExpr line e => check line (snd (eval e st)) Running
  | SDecl line t x InitNone =>
      Running (declare x (default_value t) st)
  | SDecl line _ x (InitCopy e) =>
      let (v, st1) := eval e st in
      check line st1 (fun st2 => Running (declare x v st2))
  | SDecl line t x (InitArgs args) =>
      check line (eval_list args st)
            (fun st2 => Running (declare x (default_value t) st2))
  | SDelete line e =>
      let (v, st1) := eval e st in
      check line st1
            (fun st2 => match v with
                        | VRaw l => check line (delete l st2) Running
                        | _ => Running st2
                        end)
  | SIf line c thn =>
      let (v, st1) := eval c st in
      check line st1
            (fun st2 => match v with
                        | VBool true => scoped line (block thn) st2
                        | VBool false => Running st2
                        | _ => Stuck line st2
                        end)
  | SRangeFor line _ x r body =>
      let (v, st1) := eval r st in
      check line st1
            (fun st2 =>
               match v with
               | VVector n =>
                   iterate n
                     (scoped line
                        (fun st' => block body (declare x VUnknown st')))
                     st2
               | _ => Stuck line st2
               end)
  | SReturn line e =>
      let (v, st1) := eval e st in
      check line st1 (do_return line v)
  end.

Fixpoint exec_block (ss : list stmt) (st : state) : outcome :=
  match ss with
  | [] => Running st
  | s1 :: rest =>
      match exec s1 st with
      | Running st1 => exec_block rest st1
      | o => o
      end
  end.

(** The run of a function body that ends on line [last]: a body that
    falls off its end leaves its scope there. *)
Definition run_body (last : nat) (body : list stmt) : outcome :=
  scoped last (exec_block body) init_state.

(** The run of [main], whose closing brace is on line 44. *)
Definition run_main : outcome := run_body 44 MainCpp.main_body.

End Run.

(** In trace [t], object [l] is deleted and, later, reached through
    [->m]. *)
Definition use_after_delete (t : list event) (l : nat) (m : string) : Prop :=
  exists i j, i < j
              /\ nth_error t i = Some (EvDelete l)
              /\ nth_error t j = Some (EvArrow l m).

(** [st'] has the log of [st], followed by more events. *)
Definition extends (st st' : state) : Prop :=
  exists more, log st' = (log st ++ more)%list.

End Exec.

(* ================================================================== *)
(** ** The member functions of [User] as functions *)

Module UserModel.

(** What [User.cpp] assigns through [this->] to a name that neither
    header declares. *)
Inductive stray : Type :=
| StrayBool (b : bool)        (* false *)
| StrayCall (f : string).     (* the result of f() *)

(** An object of class [User]: the four data members both headers
    declare ([int] as [Z]; no member function computes on it), and
    [undeclared], the assignments made through [this->] to names the
    class has no member for, newest first.  Such an assignment has no
    storage among the four members. *)
Record User : Type := mkUser {
  firstName : string;
  lastName : string;
  age : Z;
  email : string;
  undeclared : list (string * stray)
}.

Definition assign_undeclared (m : string) (v : stray) (this : User) : User :=
  mkUser (firstName this) (lastName this) (age this) (email this)
         ((m, v) :: undeclared this).

Definition assign_age (v : Z) (this : User) : User :=
  mkUser (firstName this) (lastName this) v (email this) (undeclared this).

(** [User::User(const std::string& first, const std::string& last,
    int userAge, const std::string& userEmail)] *)
Definition User_ctor (first last : string) (userAge : Z) (userEmail : string)
  : User :=
  assign_undeclared "id" (StrayCall "generateId")
    (mkUser first last userAge userEmail []).

(** [User::User(const User& other)]: [email] has no initialiser, so it
    is default-constructed; the default [std::string] is empty. *)
Definition User_copy (other : User) : User :=
  mkUser (firstName other) (lastName other) (age other) EmptyString [].

Definition getName (this : User) : string := firstName this.

Definition getEmail (this : User) : string := email this.

Definition getAge (this : User) : Z := age this.

(** [void User::setAge(int newAge)] *)
Definition setAge (newAge : Z) (this : User) : User :=
  let this1 :=
    if (newAge <? 0)%Z
    then assign_undeclared "isValid" (StrayBool false) this
    else this in
  assign_age newAge this1.

Definition getFullName (this : User) : string :=
  firstName this ++ " " ++ lastName this.

End UserModel.

(* ================================================================== *)
(** ** Checks over a whole file *)

Module Unit.

Import Check.

(** How a definition stands to the members a class declares. *)
Inductive decl_status : Type :=
| Agrees           (* a declaration with the same signature *)
| Differs          (* a declaration of that name, another signature *)
| NotDeclared.     (* no declaration *)

(** The class declares a constructor of these parameter types. *)
Definition declares_ctor (c : class_decl) (ts : list ctype) : bool :=
  existsb (fun m => match m with
                    | MCtor qs => ctypes_eqb ts (param_types qs)
                    | MDtor | MMethod _ _ _ _ _ => false
                    end)
          (c_members c).

Definition def_status (c : class_decl) (d : member_def) : decl_status :=
  match d with
  | DCtor _ ps _ _ =>
      if declares_ctor c (param_types ps) then Agrees else NotDeclared
  | DDtor _ _ =>
      if declares_dtor c then Agrees else NotDeclared
  | DMethod _ r n ps k _ =>
      match declared_signature c n with
      | Some sg =>
          if signature_eqb sg (mkSig r (param_types ps) k)
          then Agrees else Differs
      | None => NotDeclared
      end
  end.

(** The name a definition goes by: [C] for a constructor of class [C],
    [~C] for its destructor. *)
Definition def_label (c : class_decl) (d : member_def) : string :=
  match d with
  | DCtor _ _ _ _ => c_name c
  | DDtor _ _ => "~" ++ c_name c
  | DMethod _ _ n _ _ _ => n
  end.

(** The data members a constructor definition gives no initialiser. *)
Definition omitted_fields (c : class_decl) (d : member_def) : list string :=
  match d with
  | DCtor _ _ inits _ =>
      filter (fun f => negb (mem f (map fst inits))) (field_names c)
  | DDtor _ _ | DMethod _ _ _ _ _ _ => []
  end.

End Unit.

(* ================================================================== *)
(** ** Names and members that [main] uses *)

Module Scope.

Import Check.

(** The variables in scope, innermost first, with their types. *)
Definition tenv : Type := list (string * ctype).

Fixpoint tlookup (x : string) (env : tenv) : option ctype :=
  match env with
  | [] => None
  | (y, t) :: rest => if String.eqb x y then Some t else tlookup x rest
  end.

(** [auto] replaced by the deduced type. *)
Fixpoint subst_auto (deduced t : ctype) : ctype :=
  match t with
  | TAuto => deduced
  | TConst x => TConst (subst_auto deduced x)
  | TRef x => TRef (subst_auto deduced x)
  | TPtr x => TPtr (subst_auto deduced x)
  | TVoid | TInt | TFloat | TNamed _ | TApp _ _ => t
  end.

(** The type of an initialiser, where this development needs it:
    [std::make_unique<T>(...)] is a [std::unique_ptr<T>]. *)
Definition init_type (i : init) : option ctype :=
  match i with
  | InitCopy (EMakeUnique t _) => Some (TApp "std::unique_ptr" t)
  | _ => None
  end.

(** The type a local declaration gives its variable. *)
Definition declared_type (t : ctype) (i : init) : ctype :=
  match init_type i with
  | Some deduced => subst_auto deduced t
  | None => t
  end.

Definition expr_type (env : tenv) (e : expr) : option ctype :=
  match e with
  | EVar x => tlookup x env
  | _ => None
  end.

Definition element_type (t : ctype) : option ctype :=
  match t with
  | TApp "std::vector" e => Some e
  | _ => None
  end.

(** The object a type designates: whether it is const, and its type
    without reference and const. *)
Fixpoint object_of (t : ctype) : bool * ctype :=
  match t with
  | TRef x => object_of x
  | TConst x => (true, snd (object_of x))
  | _ => (false, t)
  end.

(** What [->] reaches from a value of type [t]. *)
Definition pointee (t : ctype) : option ctype :=
  match snd (object_of t) with
  | TPtr x => Some x
  | TApp "std::unique_ptr" x => Some x
  | _ => None
  end.

(** The variable, constness and type of the object in [obj.m] or
    [obj->m], for [obj] a variable in scope. *)
Definition receiver (env : tenv) (obj : expr) (a : access)
  : option (string * bool * ctype) :=
  match obj with
  | EVar x =>
      match tlookup x env, a with
      | Some t, Dot => Some (x, fst (object_of t), snd (object_of t))
      | Some t, Arrow =>
          match pointee t with
          | Some p => Some (x, fst (object_of p), snd (object_of p))
          | None => None
          end
      | None, _ => None
      end
  | _ => None
  end.

Inductive member_error : Type :=
| NoSuchMember (m : string)     (* the class declares no member m *)
| PrivateMember (m : string)    (* m is a data member, all are private *)
| DiscardsConst (m : string).   (* non-const m called on a const object *)

Definition is_class (c : class_decl) (t : ctype) : bool :=
  match t with
  | TNamed n => String.eqb n (c_name c)
  | _ => false
  end.

(** The error, if any, of one member access [obj.m], [obj->m] or member
    function call [obj.m(...)], [obj->m(...)] on an object of class [c],
    made from outside the class.  Constructor calls are not of that form:
    [Check.arity_mismatches] checks them. *)
Definition member_use (c : class_decl) (env : tenv) (e : expr)
  : list (string * member_error) :=
  match e with
  | EMember obj a m =>
      match receiver env obj a with
      | Some (x, _, t) =>
          if is_class c t
          then if mem m (field_names c) then [ (x, PrivateMember m) ]
               else if declares_method c m then []
               else [ (x, NoSuchMember m) ]
          else []
      | None => []
      end
  | EMethod obj a m _ =>
      match receiver env obj a with
      | Some (x, k, t) =>
          if is_class c t
          then match find_decl c m with
               | Some (MMethod is_static _ _ _ is_const) =>
                   if k && negb is_const && negb is_static
                   then [ (x, DiscardsConst m) ]
                   else []
               | _ =>
                   if mem m (field_names c) then [ (x, PrivateMember m) ]
                   else [ (x, NoSuchMember m) ]
               end
          else []
      | None => []
      end
  | _ => []
  end.

(** The variable and the member, if [e] is a member access or a member
    function call on an object of class [c]. *)
Definition member_ref (c : class_decl) (env : tenv) (e : expr)
  : list (string * string) :=
  match e with
  | EMember obj a m | EMethod obj a m _ =>
      match receiver env obj a with
      | Some (x, _, t) => if is_class c t then [ (x, m) ] else []
      | None => []
      end
  | _ => []
  end.

(** A name with [::] is declared by the header it comes from. *)
Definition is_qualified (x : string) : bool := contains "::" x.

(** The name, if [e] is a variable that no declaration in scope
    introduces, or a call [f(...)] of a function by an unqualified name
    ([main.cpp] and the two headers declare no function outside class
    [User]).  Names of types and of members are not looked up here. *)
Definition unknown_name (env : tenv) (e : expr) : list string :=
  match e with
  | EVar x =>
      if is_qualified x then []
      else match tlookup x env with
           | Some _ => []
           | None => [x]
           end
  | ECall f _ => if is_qualified f then [] else [f]
  | _ => []
  end.

Section Walk.

Variable D : Type.

(** What to report at one node of an expression. *)
Variable visit : tenv -> expr -> list D.

(** [visit] at every node of an expression, the node before its
    operands, the operands left to right. *)
Fixpoint walk_expr (env : tenv) (e : expr) {struct e} : list D :=
  visit env e
  ++ match e with
     | EInt _ | EStr _ | EBool _ | EVar _ | EThis => []
     | EMember obj _ _ => walk_expr env obj
     | EMethod obj _ _ args =>
         walk_expr env obj ++ flat_map (walk_expr env) args
     | ECall _ args | EConstruct _ args | EMakeUnique _ args =>
         flat_map (walk_expr env) args
     | EUn _ e1 => walk_expr env e1
     | EBin _ l r => walk_expr env l ++ walk_expr env r
     | EAssign l r => walk_expr env l ++ walk_expr env r
     end.

(** The reports of a statement, each with the line on which the
    statement starts (a statement may go on over further lines), and
    the scope after it.  A declaration is in scope after its own
    initialiser; what a nested block declares ends with the block. *)
Fixpoint walk_stmt (env : tenv) (s : stmt) {struct s}
  : list (nat * D) * tenv :=
  let block :=
    fix go (env : tenv) (ss : list stmt) {struct ss} : list (nat * D) :=
      match ss with
      | [] => []
      | s1 :: rest =>
          let (ds, env1) := walk_stmt env s1 in (ds ++ go env1 rest)%list
      end in
  match s with
  | SExpr l e | SDelete l e | SReturn l e =>
      (map (pair l) (walk_expr env e), env)
  | SDecl l t x i =>
      (map (pair l) (flat_map (walk_expr env) (init_exprs i)),
       (x, declared_type t i) :: env)
  | SIf l c thn =>
      ((map (pair l) (walk_expr env c) ++ block env thn)%list, env)
  | SRangeFor l t x r body =>
      let elem :=
        match expr_type env r with
        | Some tr =>
            match element_type (snd (object_of tr)) with
            | Some e => subst_auto e t
            | None => t
            end
        | None => t
        end in
      ((map (pair l) (walk_expr env r) ++ block ((x, elem) :: env) body)%list,
       env)
  end.

Fixpoint walk_block (env : tenv) (ss : list stmt) : list (nat * D) :=
  match ss with
  | [] => []
  | s1 :: rest =>
      let (ds, env1) := walk_stmt env s1 in (ds ++ walk_block env1 rest)%list
  end.

End Walk.

(** The member accesses and member function calls of a function body on
    objects of class [c] that the class does not allow, each with the
    first line of its statement and the variable. *)
Definition member_errors (c : class_decl) (body : list stmt)
  : list (nat * (string * member_error)) :=
  walk_block (string * member_error) (member_use c) [] body.

(** Every member access and member function call of a function body,
    whatever its object: the object expression, [.] or [->], the member. *)
Definition member_nodes (body : list stmt)
  : list (nat * (expr * access * string)) :=
  walk_block (expr * access * string)
             (fun _ e => match e with
                         | EMember obj a m | EMethod obj a m _ => [ (obj, a, m) ]
                         | _ => []
                         end)
             [] body.

(** All the member accesses and member function calls of a function body
    on objects of class [c], allowed or not. *)
Definition member_refs (c : class_decl) (body : list stmt)
  : list (nat * (string * string)) :=
  walk_block (string * string) (member_ref c) [] body.

(** The variables and called functions of a function body that nothing
    declares. *)
Definition unknown_names (body : list stmt) : list (nat * string) :=
  walk_block string unknown_name [] body.

(** The local variables of a function body, in order of declaration,
    nested ones included. *)
Fixpoint stmt_locals (s : stmt) : list string :=
  match s with
  | SDecl _ _ x _ => [x]
  | SIf _ _ body => flat_map stmt_locals body
  | SRangeFor _ _ x _ body => x :: flat_map stmt_locals body
  | SExpr _ _ | SDelete _ _ | SReturn _ _ => []
  end.

(** The functions a body calls by an unqualified name, [f(...)]. *)
Definition free_calls (body : list stmt) : list (nat * string) :=
  walk_block string
             (fun _ e => match e with ECall f _ => [f] | _ => [] end)
             [] body.

(** Those of a member function definition that the class has no member
    function for; the headers of the project declare nothing outside
    class [User]. *)
Definition undeclared_calls (c : class_decl) (d : member_def)
  : list (nat * string) :=
  filter (fun lf => negb (declares_method c (snd lf)))
         (free_calls (def_body d)).

End Scope.

(* ================================================================== *)
(** ** src/main.cpp as text *)

Module MainCppText.

Definition dq : string := UserCpp.dq.

(** The file, one string per line, in order. *)
Definition text : list string :=
  [
    (*  1 *) "#include <iostream>";
    (*  2 *) "#include <vector>";
    (*  3 *) "#include <memory>";
    (*  4 *) "#include " ++ dq ++ "User.h" ++ dq;
    (*  5 *) "#include " ++ dq ++ "Database.h" ++ dq;
    (*  6 *) EmptyString;
    (*  7 *) "// Intentional errors for testing";
    (*  8 *) "int main() {";
    (*  9 *) "    // Error: undefined variable";
    (* 10 *) "    std::cout << " ++ dq ++ "Starting application: " ++ dq ++ " << undefinedVersion << std::endl;";
    (* 11 *) "    ";
    (* 12 *) "    // Type error: wrong type assignment";
    (* 13 *) "    std::string port = 8080; // Should be int";
    (* 14 *) "    ";
    (* 15 *) "    Database db;";
    (* 16 *) "    ";
    (* 17 *) "    // Error: calling non-existent method";
    (* 18 *) "    if (!db.initialize()) {";
    (* 19 *) "        std::cerr << " ++ dq ++ "Failed to initialize database" ++ dq ++ " << std::endl;";
    (* 20 *) "        return 1;";
    (* 21 *) "    }";
    (* 22 *) "    ";
    (* 23 *) "    std::vector<User> users;";
    (* 24 *) "    ";
    (* 25 *) "    // Error: wrong constructor parameters";
    (* 26 *) "    User user1(" ++ dq ++ "John" ++ dq ++ ", " ++ dq ++ "Doe" ++ dq ++ ", 25, " ++ dq ++ "invalid@email" ++ dq ++ "); // Missing parameter";
    (* 27 *) "    User user2(" ++ dq ++ "Jane" ++ dq ++ ", " ++ dq ++ "Smith" ++ dq ++ "); // Too few parameters";
    (* 28 *) "    ";
    (* 29 *) "    users.push_back(user1);";
    (* 30 *) "    users.push_back(user2);";
    (* 31 *) "    ";
    (* 32 *) "    // Error: accessing non-existent member";
    (* 33 *) "    for (const auto& user : users) {";
    (* 34 *) "        std::cout << " ++ dq ++ "User: " ++ dq ++ " << user.getFullName() ";
    (* 35 *) "                  << " ++ dq ++ ", Age: " ++ dq ++ " << user.birthYear << std::endl; // Wrong member name";
    (* 36 *) "    }";
    (* 37 *) "    ";
    (* 38 *) "    // Memory error: using deleted pointer";
    (* 39 *) "    auto userPtr = std::make_unique<User>(" ++ dq ++ "Test" ++ dq ++ ", " ++ dq ++ "User" ++ dq ++ ", 30, " ++ dq ++ "test@example.com" ++ dq ++ ");";
    (* 40 *) "    delete userPtr.get(); // Wrong way to delete unique_ptr";
    (* 41 *) "    std::cout << userPtr->getName() << std::endl; // Use after delete";
    (* 42 *) "    ";
    (* 43 *) "    return 0;";
    (* 44 *) "}"
  ].

End MainCppText.

(* ================================================================== *)
(** ** What the checks find in a member function definition *)

Module Defects.

Import Check Unit Scope.

(** What a string literal becomes as a value: [const char*]. *)
Definition char_ptr : ctype := TPtr (TConst (TNamed "char")).

Definition is_string (t : ctype) : bool := ctype_eqb t (TNamed "std::string").

Definition is_arithmetic (t : ctype) : bool :=
  match t with
  | TInt | TFloat => true
  | _ => false
  end.

(** The type of the value of an expression in a member function of
    class [c] with parameters [ps], for the forms that the functions of
    [src/User.cpp] return: literals, names, [T(args)], and [+] on two
    [int] or on a [std::string] and a string; no type for other forms. *)
Fixpoint value_type (c : class_decl) (ps : list param) (e : expr)
  : option ctype :=
  match e with
  | EInt _ => Some TInt
  | EStr _ => Some char_ptr
  | EVar x => option_map (fun t => snd (object_of t)) (name_type c ps x)
  | EConstruct t _ => Some t
  | EBin OpAdd l r =>
      match value_type c ps l, value_type c ps r with
      | Some a, Some b =>
          if (is_string a && (is_string b || ctype_eqb b char_ptr))
             || (ctype_eqb a char_ptr && is_string b)
          then Some (TNamed "std::string")
          else if ctype_eqb a TInt && ctype_eqb b TInt then Some TInt
          else None
      | _, _ => None
      end
  | _ => None
  end.

(** A value of type [from] can be returned from a function that returns
    [to]: the same type, an arithmetic conversion, or a string literal
    for a [std::string].  Neither header gives class [User] a conversion
    function. *)
Definition returnable (from to : ctype) : bool :=
  ctype_eqb from (snd (object_of to))
  || (is_arithmetic from && is_arithmetic (snd (object_of to)))
  || (ctype_eqb from char_ptr && is_string (snd (object_of to))).

(** The [return] statements of a body, with their lines. *)
Fixpoint stmt_returns_at (s : stmt) : list (nat * expr) :=
  match s with
  | SReturn l e => [ (l, e) ]
  | SIf _ _ body | SRangeFor _ _ _ _ body => flat_map stmt_returns_at body
  | SExpr _ _ | SDecl _ _ _ _ | SDelete _ _ => []
  end.

(** The [return] statements of a definition whose value cannot be
    returned from a function of the return type the definition has. *)
Definition return_mismatches (c : class_decl) (d : member_def)
  : list (nat * expr) :=
  match d with
  | DMethod _ r _ ps _ body =>
      filter (fun le => match value_type c ps (snd le) with
                        | Some t => negb (returnable t r)
                        | None => false
                        end)
             (flat_map stmt_returns_at body)
  | DCtor _ _ _ _ | DDtor _ _ => []
  end.

Inductive defect : Type :=
| DisagreesWithDeclaration
| HasNoDeclaration
| UndeclaredMember (m : string)
| UndeclaredFunction (f : string)
| DeleteOfNonPointer (e : expr)
| ReturnsWrongType (e : expr).

(** What these six checks find in a definition, each with its line: the
    state of the definition with respect to the class, on the line of its
    signature; then, in its body, the members and functions that are not
    declared, the deletes of non-pointers and the returns of a wrong
    type.  The list is that of these checks, not of all that a compiler
    refuses. *)
Definition def_defects (c : class_decl) (d : member_def) : list (nat * defect) :=
  match def_status c d with
  | Agrees => []
  | Differs => [ (def_line d, DisagreesWithDeclaration) ]
  | NotDeclared => [ (def_line d, HasNoDeclaration) ]
  end
  ++ map (fun a => (fst a, UndeclaredMember (snd a))) (undeclared_accesses c d)
  ++ map (fun a => (fst a, UndeclaredFunction (snd a))) (undeclared_calls c d)
  ++ map (fun a => (fst a, DeleteOfNonPointer (snd a))) (non_pointer_deletes c d)
  ++ map (fun a => (fst a, ReturnsWrongType (snd a))) (return_mismatches c d).

Definition unit_defects (c : class_decl) (ds : list member_def)
  : list (nat * defect) :=
  flat_map (def_defects c) ds.

End Defects.

(* ================================================================== *)
(** ** Objects of [User] that agree on the declared data members *)

Module UserData.

Import UserModel.

Definition same_data (a b : User) : Prop :=
  firstName a = firstName b
  /\ lastName a = lastName b
  /\ age a = age b
  /\ email a = email b.

End UserData.

(* ================================================================== *)
(** ** Properties of the checks *)

Import Check.

Lemma ctype_eqb_eq (a b : ctype) : ctype_eqb a b = true <-> a = b.
Proof.
  revert b.
  induction a as [ | | | | x | f x IH | x IH | x IH | x IH ];
    intros [ | | | | y | g y | y | y | y ]; simpl;
    try (split; [ reflexivity || discriminate | reflexivity || discriminate ]).
  - rewrite String.eqb_eq. split; congruence.
  - rewrite andb_true_iff, String.eqb_eq, IH. split.
    + intros [-> ->]. reflexivity.
    + intros H. inversion H. split; reflexivity.
  - rewrite IH. split; congruence.
  - rewrite IH. split; congruence.
  - rewrite IH. split; congruence.
Qed.

Lemma ctypes_eqb_eq (a b : list ctype) : ctypes_eqb a b = true <-> a = b.
Proof.
  revert b.
  induction a as [ | x a IH ]; intros [ | y b ]; simpl;
    try (split; [ reflexivity || discriminate | reflexivity || discriminate ]).
  rewrite andb_true_iff, ctype_eqb_eq, IH. split.
  - intros [-> ->]. reflexivity.
  - intros H. inversion H. split; reflexivity.
Qed.

Lemma signature_eqb_eq (a b : signature) : signature_eqb a b = true <-> a = b.
Proof.
  destruct a as [ra pa ka], b as [rb pb kb]. unfold signature_eqb. simpl.
  rewrite !andb_true_iff, ctype_eqb_eq, ctypes_eqb_eq, Bool.eqb_true_iff.
  split.
  - intros [[-> ->] ->]. reflexivity.
  - intros H. inversion H. repeat split.
Qed.

(** Two signatures the check tells apart are different. *)
Lemma signature_eqb_neq (a b : signature) :
  signature_eqb a b = false -> Some a <> Some b.
Proof.
  intros H E. inversion E as [E']. apply signature_eqb_eq in E'.
  rewrite E' in H. discriminate.
Qed.

Lemma mem_In (x : string) (l : list string) : mem x l = true <-> In x l.
Proof.
  unfold mem. rewrite existsb_exists. split.
  - intros [y [Hy E]]. apply String.eqb_eq in E. subst. exact Hy.
  - intros H. exists x. split; [ exact H | apply String.eqb_refl ].
Qed.

(** Every access [undeclared_accesses] reports is an access of the body
    through [this->] to a name the class does not declare. *)
Lemma undeclared_accesses_sound (c : class_decl) (d : member_def)
      (l : nat) (m : string) :
  In (l, m) (undeclared_accesses c d) <->
  In (l, m) (flat_map stmt_this_members (def_body d))
  /\ ~ In m (field_names c) /\ ~ In m (method_names c).
Proof.
  unfold undeclared_accesses, declares_member.
  rewrite filter_In. simpl.
  rewrite negb_true_iff, orb_false_iff.
  rewrite <- !not_true_iff_false, !mem_In.
  tauto.
Qed.

Lemma prefix_app (needle s : string) :
  String.prefix needle s = true <-> exists post, s = needle ++ post.
Proof.
  revert s.
  induction needle as [ | a needle IH ]; intros s; simpl.
  - split; [ intros _; exists s; reflexivity | ].
    intros _. destruct s; reflexivity.
  - destruct s as [ | b s ].
    + split; [ discriminate | intros [post E]; discriminate ].
    + simpl. destruct (Ascii.ascii_dec a b) as [ -> | Hab ].
      * rewrite IH. split; intros [post E]; exists post.
        -- rewrite E. reflexivity.
        -- inversion E. reflexivity.
      * split; [ discriminate | intros [post E]; simpl in E; congruence ].
Qed.

(** [contains] decides whether the needle is a substring. *)
Lemma contains_app (needle s : string) :
  contains needle s = true <-> exists pre post, s = pre ++ needle ++ post.
Proof.
  induction s as [ | a s IH ].
  - cbn [contains]. rewrite orb_false_r, prefix_app. split.
    + intros [post E]. exists EmptyString, post. exact E.
    + intros [pre [post E]]. destruct pre as [ | b pre ].
      * exists post. exact E.
      * discriminate.
  - cbn [contains]. rewrite orb_true_iff, prefix_app, IH. split.
    + intros [[post E] | [pre [post E]]].
      * exists EmptyString, post. exact E.
      * exists (String a pre), post. rewrite E. reflexivity.
    + intros [pre [post E]]. destruct pre as [ | b pre ].
      * left. exists post. exact E.
      * right. inversion E. exists pre, post. reflexivity.
Qed.

Lemma lines_from_spec (needle : string) (text : list string) (start n : nat) :
  In n (lines_from start needle text) <->
  exists k s, n = start + k /\ nth_error text k = Some s
              /\ contains needle s = true.
Proof.
  revert start.
  induction text as [ | l text IH ]; intros start; simpl.
  - split; [ contradiction | ].
    intros [k [s [_ [H _]]]]. destruct k; discriminate.
  - rewrite in_app_iff, IH. split.
    + intros [H | [k [s [E [Hk Hs]]]]].
      * destruct (contains needle l) eqn:Hl; [ | contradiction ].
        destruct H as [<- | []]. exists 0, l. repeat split; [ lia | exact Hl ].
      * exists (S k), s. repeat split; [ lia | exact Hk | exact Hs ].
    + intros [[ | k] [s [E [Hk Hs]]]].
      * left. simpl in Hk. injection Hk as ->. rewrite Hs. left. lia.
      * right. exists k, s. repeat split; [ lia | exact Hk | exact Hs ].
Qed.

(** A line number is listed exactly when that line holds the needle. *)
Lemma lines_containing_spec (needle : string) (text : list string) (n : nat) :
  In n (lines_containing needle text) <->
  exists s, line_at text n = Some s /\ contains needle s = true.
Proof.
  unfold lines_containing. rewrite lines_from_spec. split.
  - intros [k [s [-> [Hk Hs]]]]. exists s. split; [ exact Hk | exact Hs ].
  - intros [s [Hn Hs]]. destruct n as [ | k ]; [ discriminate | ].
    exists k, s. repeat split; [ exact Hn | exact Hs ].
Qed.

(** The line numbers written in the transcription of [src/User.cpp] are
    those of its text: the line of each definition shows [User::], the
    line of each statement shows the statement. *)
Lemma UserCpp_lines_agree :
  forallb (fun d => line_has UserCpp.text (def_line d) "User::") UserCpp.defs
  = true
  /\ forallb (fun s => line_has UserCpp.text (stmt_line s) (stmt_token s))
             (flat_map stmt_flatten (flat_map def_body UserCpp.defs))
     = true
  /\ map stmt_line (flat_map stmt_flatten (flat_map def_body UserCpp.defs))
     = [7; 18; 22; 26; 30; 35; 37; 39; 44; 49].
Proof. repeat split. Qed.

(* ================================================================== *)
(** ** The log of a run is written in the order of execution *)

(** Induction on expressions and statements that reaches the elements of
    the argument lists and of the nested blocks. *)
Section NestedInduction.

Variable P : expr -> Prop.
Hypothesis P_leaf_int : forall z, P (EInt z).
Hypothesis P_leaf_str : forall s, P (EStr s).
Hypothesis P_leaf_bool : forall b, P (EBool b).
Hypothesis P_leaf_var : forall x, P (EVar x).
Hypothesis P_leaf_this : P EThis.
Hypothesis P_member : forall obj a m, P obj -> P (EMember obj a m).
Hypothesis P_method :
  forall obj a m args, P obj -> Forall P args -> P (EMethod obj a m args).
Hypothesis P_call : forall f args, Forall P args -> P (ECall f args).
Hypothesis P_construct : forall t args, Forall P args -> P (EConstruct t args).
Hypothesis P_make_unique :
  forall t args, Forall P args -> P (EMakeUnique t args).
Hypothesis P_un : forall op e, P e -> P (EUn op e).
Hypothesis P_bin : forall op l r, P l -> P r -> P (EBin op l r).
Hypothesis P_assign : forall l r, P l -> P r -> P (EAssign l r).

Lemma expr_nested_ind : forall e, P e.
Proof.
  fix IH 1.
  assert (IHs : forall es, Forall P es).
  { fix IHs 1. intros [ | e es ]; constructor; [ apply IH | apply IHs ]. }
  intros [ z | s | b | x | | obj a m | obj a m args | f args | t args
         | t args | op e | op l r | l r ].
  - apply P_leaf_int.
  - apply P_leaf_str.
  - apply P_leaf_bool.
  - apply P_leaf_var.
  - apply P_leaf_this.
  - apply P_member, IH.
  - apply P_method; [ apply IH | apply IHs ].
  - apply P_call, IHs.
  - apply P_construct, IHs.
  - apply P_make_unique, IHs.
  - apply P_un, IH.
  - apply P_bin; apply IH.
  - apply P_assign; apply IH.
Qed.

Variable Q : stmt -> Prop.
Hypothesis Q_expr : forall l e, Q (SExpr l e).
Hypothesis Q_decl : forall l t x i, Q (SDecl l t x i).
Hypothesis Q_delete : forall l e, Q (SDelete l e).
Hypothesis Q_if : forall l c thn, Forall Q thn -> Q (SIf l c thn).
Hypothesis Q_for :
  forall l t x r body, Forall Q body -> Q (SRangeFor l t x r body).
Hypothesis Q_return : forall l e, Q (SReturn l e).

Lemma stmt_nested_ind : forall s, Q s.
Proof.
  fix IH 1.
  assert (IHs : forall ss, Forall Q ss).
  { fix IHs 1. intros [ | s ss ]; constructor; [ apply IH | apply IHs ]. }
  intros [ l e | l t x i | l e | l c thn | l t x r body | l e ].
  - apply Q_expr.
  - apply Q_decl.
  - apply Q_delete.
  - apply Q_if, IHs.
  - apply Q_for, IHs.
  - apply Q_return.
Qed.

End NestedInduction.

Lemma extends_refl (st : Exec.state) : Exec.extends st st.
Proof. exists []. symmetry. apply app_nil_r. Qed.

Lemma extends_trans (a b c : Exec.state) :
  Exec.extends a b -> Exec.extends b c -> Exec.extends a c.
Proof.
  intros [m1 E1] [m2 E2]. exists (m1 ++ m2)%list.
  rewrite E2, E1. symmetry. apply app_assoc.
Qed.

(** A state with the log of [st] extends it. *)
Lemma extends_same_log (st st' : Exec.state) :
  Exec.log st' = Exec.log st -> Exec.extends st st'.
Proof. intros E. exists []. rewrite E. symmetry. apply app_nil_r. Qed.

Lemma emit_extends (ev : Exec.event) (st : Exec.state) :
  Exec.extends st (Exec.emit ev st).
Proof.
  unfold Exec.emit. destruct (Exec.defined st).
  - exists [ev]. reflexivity.
  - apply extends_refl.
Qed.

Lemma set_var_extends (x : string) (v : Exec.value) (st : Exec.state) :
  Exec.extends st (Exec.set_var x v st).
Proof.
  unfold Exec.set_var. destruct (Exec.defined st);
    apply extends_same_log; reflexivity.
Qed.

Lemma declare_extends (x : string) (v : Exec.value) (st : Exec.state) :
  Exec.extends st (Exec.declare x v st).
Proof.
  unfold Exec.declare. destruct (Exec.defined st);
    apply extends_same_log; reflexivity.
Qed.

Lemma raise_extends (f : Exec.fault) (st : Exec.state) :
  Exec.extends st (Exec.raise f st).
Proof.
  unfold Exec.raise. destruct (Exec.defined st);
    apply extends_same_log; reflexivity.
Qed.

Lemma make_unique_extends (st : Exec.state) :
  Exec.extends st (snd (Exec.make_unique st)).
Proof.
  unfold Exec.make_unique. simpl. destruct (Exec.defined st).
  - exists [Exec.EvMakeUnique (Exec.next st)]. reflexivity.
  - apply extends_refl.
Qed.

Lemma arrow_extends (l : nat) (m : string) (st : Exec.state) :
  Exec.extends st (Exec.arrow l m st).
Proof.
  unfold Exec.arrow. destruct (Exec.is_deleted l st).
  - eapply extends_trans; [ apply emit_extends | apply raise_extends ].
  - apply emit_extends.
Qed.

Lemma delete_extends (l : nat) (st : Exec.state) :
  Exec.extends st (Exec.delete l st).
Proof.
  unfold Exec.delete. destruct (Exec.is_deleted l st).
  - eapply extends_trans; [ apply emit_extends | apply raise_extends ].
  - eapply extends_trans; [ apply emit_extends | ].
    destruct (Exec.defined (Exec.emit (Exec.EvDelete l) st));
      apply extends_same_log; reflexivity.
Qed.

Lemma destroy_extends (v : Exec.value) (st : Exec.state) :
  Exec.extends st (Exec.destroy v st).
Proof.
  destruct v; simpl; try apply extends_refl. apply delete_extends.
Qed.

(** Leaving a scope only appends to the log: the deletes of the
    destructors. *)
Lemma leave_extends (k : nat) :
  forall st, Exec.extends st (Exec.leave k st).
Proof.
  induction k as [ | k IH ]; intros st; simpl.
  - apply extends_refl.
  - destruct (Exec.defined st); [ | apply extends_refl ].
    destruct (Exec.env st) as [ | [x v] rest ]; [ apply extends_refl | ].
    eapply extends_trans; [ | apply IH ].
    eapply extends_trans; [ | apply destroy_extends ].
    apply extends_same_log. reflexivity.
Qed.

Lemma check_extends (line : nat) (st0 st : Exec.state)
      (k : Exec.state -> Exec.outcome) :
  Exec.extends st0 st ->
  (forall st', Exec.extends st' (Exec.final_state (k st'))) ->
  Exec.extends st0 (Exec.final_state (Exec.check line st k)).
Proof.
  intros H Hk. unfold Exec.check. destruct (Exec.undefined st).
  - exact H.
  - eapply extends_trans; [ exact H | apply Hk ].
Qed.

Lemma scoped_extends (line : nat) (body : Exec.state -> Exec.outcome) :
  (forall st, Exec.extends st (Exec.final_state (body st))) ->
  forall st, Exec.extends st (Exec.final_state (Exec.scoped line body st)).
Proof.
  intros Hbody st. unfold Exec.scoped.
  specialize (Hbody st). destruct (body st) as [ st1 | v st1 | l st1 | l f st1 ];
    try exact Hbody.
  simpl in Hbody. apply check_extends.
  - eapply extends_trans; [ exact Hbody | apply leave_extends ].
  - intros st'. apply extends_refl.
Qed.

Lemma call_method_extends (b : bool) (target : option string)
      (v : Exec.value) (a : access) (m : string) (st : Exec.state) :
  Exec.extends st (snd (Exec.call_method b target v a m st)).
Proof.
  unfold Exec.call_method.
  destruct v, a; try apply extends_refl;
    repeat match goal with
           | |- context [ if ?c then _ else _ ] => destruct c
           | |- context [ match ?t with Some _ => _ | None => _ end ] =>
               destruct t
           end;
    simpl;
    first [ apply extends_refl | apply arrow_extends | apply set_var_extends ].
Qed.

Lemma access_member_extends (v : Exec.value) (a : access) (m : string)
      (st : Exec.state) :
  Exec.extends st (Exec.access_member v a m st).
Proof.
  unfold Exec.access_member.
  destruct v, a; try apply extends_refl; apply arrow_extends.
Qed.

Lemma eval_list_extends (b : bool) (es : list expr) :
  Forall (fun e => forall st, Exec.extends st (snd (Exec.eval b e st))) es ->
  forall st, Exec.extends st (Exec.eval_list b es st).
Proof.
  induction 1 as [ | e es He _ IH ]; intros st; simpl.
  - apply extends_refl.
  - eapply extends_trans; [ apply He | apply IH ].
Qed.

(** Evaluating an expression only appends to the log. *)
Lemma eval_extends (b : bool) (e : expr) :
  forall st, Exec.extends st (snd (Exec.eval b e st)).
Proof.
  induction e as [ z | s | k | x | | obj a m IH | obj a m args IH IHargs
                 | f args IHargs | t args IHargs | t args IHargs
                 | op e IH | op l r IHl IHr | l r IHl IHr ]
    using expr_nested_ind; intros st.
  - apply extends_refl.
  - apply extends_refl.
  - apply extends_refl.
  - apply extends_refl.
  - apply extends_refl.
  - change (Exec.eval b (EMember obj a m) st)
      with (let (v, st1) := Exec.eval b obj st in
            (Exec.VUnknown, Exec.access_member v a m st1)).
    specialize (IH st). destruct (Exec.eval b obj st) as [v st1]. simpl in *.
    eapply extends_trans; [ exact IH | apply access_member_extends ].
  - change (Exec.eval b (EMethod obj a m args) st)
      with (let (v, st1) := Exec.eval b obj st in
            Exec.call_method b (Exec.var_of obj) v a m
                             (Exec.eval_list b args st1)).
    specialize (IH st). destruct (Exec.eval b obj st) as [v st1]. simpl in IH.
    eapply extends_trans; [ exact IH | ].
    eapply extends_trans;
      [ apply eval_list_extends, IHargs | apply call_method_extends ].
  - change (Exec.eval b (ECall f args) st)
      with (Exec.VUnknown, Exec.eval_list b args st).
    apply eval_list_extends, IHargs.
  - change (Exec.eval b (EConstruct t args) st)
      with (Exec.default_value t, Exec.eval_list b args st).
    apply eval_list_extends, IHargs.
  - change (Exec.eval b (EMakeUnique t args) st)
      with (let (l, st1) := Exec.make_unique (Exec.eval_list b args st) in
            (Exec.VUnique l, st1)).
    pose proof (make_unique_extends (Exec.eval_list b args st)) as H.
    destruct (Exec.make_unique (Exec.eval_list b args st)) as [l st1].
    simpl in *.
    eapply extends_trans; [ apply eval_list_extends, IHargs | exact H ].
  - destruct op.
    change (Exec.eval b (EUn OpNot e) st)
      with (let (v, st1) := Exec.eval b e st in
            (match v with
             | Exec.VBool c => Exec.VBool (negb c)
             | _ => Exec.VUnknown
             end, st1)).
    specialize (IH st). destruct (Exec.eval b e st) as [v st1]. exact IH.
  - change (Exec.eval b (EBin op l r) st)
      with (let (x, st1) := Exec.eval b l st in
            let (y, st2) := Exec.eval b r st1 in
            (Exec.binop_value op x y, st2)).
    specialize (IHl st). destruct (Exec.eval b l st) as [x st1].
    specialize (IHr st1). destruct (Exec.eval b r st1) as [y st2].
    eapply extends_trans; [ exact IHl | exact IHr ].
  - change (Exec.eval b (EAssign l r) st)
      with (let (v, st1) := Exec.eval b r st in
            let (_, st2) := Exec.eval b l st1 in
            (v, match Exec.var_of l with
                | Some x => Exec.set_var x v st2
                | None => st2
                end)).
    specialize (IHr st). destruct (Exec.eval b r st) as [v st1].
    specialize (IHl st1). destruct (Exec.eval b l st1) as [w st2].
    simpl in *.
    eapply extends_trans; [ exact IHr | ].
    eapply extends_trans; [ exact IHl | ].
    destruct (Exec.var_of l); [ apply set_var_extends | apply extends_refl ].
Qed.

Lemma iterate_extends (n : nat) (body : Exec.state -> Exec.outcome) :
  (forall st, Exec.extends st (Exec.final_state (body st))) ->
  forall st, Exec.extends st (Exec.final_state (Exec.iterate n body st)).
Proof.
  intros Hbody. induction n as [ | n IH ]; intros st; simpl.
  - apply extends_refl.
  - specialize (Hbody st).
    destruct (body st) as [ st1 | v st1 | l st1 | l f st1 ]; try exact Hbody.
    eapply extends_trans; [ exact Hbody | apply IH ].
Qed.

Lemma exec_block_extends_from (b : bool) (ss : list stmt) :
  Forall (fun s => forall st,
              Exec.extends st (Exec.final_state (Exec.exec b s st))) ss ->
  forall st, Exec.extends st (Exec.final_state (Exec.exec_block b ss st)).
Proof.
  induction 1 as [ | s ss Hs _ IH ]; intros st; simpl.
  - apply extends_refl.
  - specialize (Hs st).
    destruct (Exec.exec b s st) as [ st1 | v st1 | l st1 | l f st1 ];
      try exact Hs.
    eapply extends_trans; [ exact Hs | apply IH ].
Qed.

Lemma do_return_extends (line : nat) (v : Exec.value) (st : Exec.state) :
  Exec.extends st (Exec.final_state (Exec.do_return line v st)).
Proof.
  unfold Exec.do_return. apply check_extends.
  - apply leave_extends.
  - intros st'. apply extends_refl.
Qed.

(** Executing a statement only appends to the log. *)
Lemma exec_extends (b : bool) (s : stmt) :
  forall st, Exec.extends st (Exec.final_state (Exec.exec b s st)).
Proof.
  induction s as [ l e | l t x i | l e | l c thn IH | l t x r body IH | l e ]
    using stmt_nested_ind; intros st.
  - change (Exec.exec b (SExpr l e) st)
      with (Exec.check l (snd (Exec.eval b e st)) Exec.Running).
    apply check_extends; [ apply eval_extends | intros; apply extends_refl ].
  - destruct i as [ | e | args ].
    + apply declare_extends.
    + change (Exec.exec b (SDecl l t x (InitCopy e)) st)
        with (let (v, st1) := Exec.eval b e st in
              Exec.check l st1
                (fun st2 => Exec.Running (Exec.declare x v st2))).
      pose proof (eval_extends b e st) as H.
      destruct (Exec.eval b e st) as [v st1]. simpl in H.
      apply check_extends; [ exact H | intros; apply declare_extends ].
    + change (Exec.exec b (SDecl l t x (InitArgs args)) st)
        with (Exec.check l (Exec.eval_list b args st)
                (fun st2 => Exec.Running
                              (Exec.declare x (Exec.default_value t) st2))).
      apply check_extends; [ | intros; apply declare_extends ].
      apply eval_list_extends.
      apply Forall_forall. intros e _. apply eval_extends.
  - change (Exec.exec b (SDelete l e) st)
      with (let (v, st1) := Exec.eval b e st in
            Exec.check l st1
              (fun st2 => match v with
                          | Exec.VRaw k =>
                              Exec.check l (Exec.delete k st2) Exec.Running
                          | _ => Exec.Running st2
                          end)).
    pose proof (eval_extends b e st) as H.
    destruct (Exec.eval b e st) as [v st1]. simpl in H.
    apply check_extends; [ exact H | ].
    intros st'. destruct v; try apply extends_refl.
    apply check_extends; [ apply delete_extends | intros; apply extends_refl ].
  - change (Exec.exec b (SIf l c thn) st)
      with (let (v, st1) := Exec.eval b c st in
            Exec.check l st1
              (fun st2 => match v with
                          | Exec.VBool true =>
                              Exec.scoped l (Exec.exec_block b thn) st2
                          | Exec.VBool false => Exec.Running st2
                          | _ => Exec.Stuck l st2
                          end)).
    pose proof (eval_extends b c st) as H.
    destruct (Exec.eval b c st) as [v st1]. simpl in H.
    apply check_extends; [ exact H | ].
    intros st'. destruct v as [ | [ | ] | | | | | ]; try apply extends_refl.
    apply scoped_extends. apply exec_block_extends_from, IH.
  - change (Exec.exec b (SRangeFor l t x r body) st)
      with (let (v, st1) := Exec.eval b r st in
            Exec.check l st1
              (fun st2 =>
                 match v with
                 | Exec.VVector n =>
                     Exec.iterate n
                       (Exec.scoped l
                          (fun st' => Exec.exec_block b body
                                        (Exec.declare x Exec.VUnknown st')))
                       st2
                 | _ => Exec.Stuck l st2
                 end)).
    pose proof (eval_extends b r st) as H.
    destruct (Exec.eval b r st) as [v st1]. simpl in H.
    apply check_extends; [ exact H | ].
    intros st'. destruct v; try apply extends_refl.
    apply iterate_extends. apply scoped_extends. intros st2.
    eapply extends_trans; [ apply (declare_extends x Exec.VUnknown) | ].
    apply (exec_block_extends_from b body IH).
  - change (Exec.exec b (SReturn l e) st)
      with (let (v, st1) := Exec.eval b e st in
            Exec.check l st1 (Exec.do_return l v)).
    pose proof (eval_extends b e st) as H.
    destruct (Exec.eval b e st) as [v st1]. simpl in H.
    apply check_extends; [ exact H | intros; apply do_return_extends ].
Qed.

Lemma exec_block_extends (b : bool) (ss : list stmt) (st : Exec.state) :
  Exec.extends st (Exec.final_state (Exec.exec_block b ss st)).
Proof.
  apply exec_block_extends_from.
  apply Forall_forall. intros s _. apply exec_extends.
Qed.

(** An event keeps the position at which it was logged: the order of the
    trace of a run is the order in which the run did things. *)
Lemma logged_event_stays (b : bool) (ss : list stmt) (st : Exec.state)
      (i : nat) (ev : Exec.event) :
  nth_error (Exec.log st) i = Some ev ->
  nth_error (Exec.trace (Exec.exec_block b ss st)) i = Some ev.
Proof.
  intros H. destruct (exec_block_extends b ss st) as [more E].
  unfold Exec.trace. rewrite E.
  rewrite nth_error_app1; [ exact H | ].
  apply nth_error_Some. rewrite H. discriminate.
Qed.

(** A run whose behaviour has become undefined does nothing more: its
    state is the one in which the fault was raised. *)
Lemma leave_undefined (k : nat) (st : Exec.state) :
  Exec.defined st = false -> Exec.leave k st = st.
Proof.
  intros H. destruct k; simpl; [ reflexivity | rewrite H; reflexivity ].
Qed.

(** Two variants of [main] show what the destructor of [userPtr] does.
    Without the use on line 41, the run reaches [return 0], where
    [~unique_ptr] deletes the object that line 40 has deleted already;
    without the [delete] on line 40, [main] returns 0 and the object is
    deleted once, by [~unique_ptr]. *)
Lemma main_without_line_41_deletes_twice :
  exists st,
    Exec.run_body true 44
      (firstn 12 MainCpp.main_body ++ skipn 13 MainCpp.main_body)%list
    = Exec.Undefined 43 (Exec.DoubleDelete 0) st
    /\ Exec.log st
       = [ Exec.EvMakeUnique 0; Exec.EvDelete 0; Exec.EvDelete 0 ].
Proof. eexists. split; vm_compute; reflexivity. Qed.

Lemma main_without_line_40_returns_0 :
  exists st,
    Exec.run_body true 44
      (firstn 11 MainCpp.main_body ++ skipn 12 MainCpp.main_body)%list
    = Exec.Returned (Exec.VInt 0) st
    /\ Exec.log st
       = [ Exec.EvMakeUnique 0; Exec.EvArrow 0 "getName"; Exec.EvDelete 0 ].
Proof. eexists. split; vm_compute; reflexivity. Qed.

(* ================================================================== *)
(** ** The member functions as functions: frame lemmas *)

Import UserModel.

Lemma assign_undeclared_frame (m : string) (v : stray) (u : User) :
  firstName (assign_undeclared m v u) = firstName u
  /\ lastName (assign_undeclared m v u) = lastName u
  /\ age (assign_undeclared m v u) = age u
  /\ email (assign_undeclared m v u) = email u.
Proof. repeat split. Qed.

(** [setAge] leaves the three other data members alone. *)
Lemma setAge_frame (n : Z) (u : User) :
  firstName (setAge n u) = firstName u
  /\ lastName (setAge n u) = lastName u
  /\ email (setAge n u) = email u.
Proof.
  unfold setAge. destruct (n <? 0)%Z; repeat split.
Qed.

(** The last call of [setAge] decides the age. *)
Lemma setAge_setAge (n k : Z) (u : User) :
  getAge (setAge n (setAge k u)) = getAge (setAge n u).
Proof.
  unfold setAge, getAge. destruct (n <? 0)%Z; reflexivity.
Qed.

(* ================================================================== *)
(** ** The claims *)

(** C1, as the code has it: the four-parameter constructor of
    [src/User.cpp] assigns to [this->id]; neither declaration of class
    [User] has a member [id], so member lookup fails for that definition
    under either header; the access is the only one in the constructor,
    and it stands on line 7 of the file, the one line of the text that
    holds [this->id]. *)
Theorem ctor4_accesses_undeclared_id_on_line_7 :
  List.length (def_params UserCpp.ctor4) = 4
  /\ Forall (fun h => declares_member h "id" = false
                      /\ undeclared_accesses h UserCpp.ctor4 = [(7, "id")]
                      /\ member_lookup_ok h UserCpp.ctor4 = false)
            User_headers
  /\ lines_containing "this->id" UserCpp.text = [7]
  /\ line_at UserCpp.text 7
     = Some "    this->id = generateId(); // id doesn't exist in class".
Proof.
  split; [ reflexivity | ].
  split; [ | split; reflexivity ].
  unfold User_headers.
  repeat constructor.
Qed.

(** C1, as the claim has it, fails: line 8 of [src/User.cpp] is the brace
    that closes the constructor; no access to [id] is on line 8, under
    either header, and [this->id] does not occur in that line. *)
Lemma no_access_to_id_on_line_8 :
  line_at UserCpp.text 8 = Some "}"
  /\ ~ In 8 (lines_containing "this->id" UserCpp.text)
  /\ ~ (exists h, In h User_headers
                  /\ In (8, "id") (undeclared_accesses h UserCpp.ctor4)).
Proof.
  split; [ reflexivity | split ].
  - vm_compute. intros [H | []]. discriminate.
  - intros [h [Hh Hin]].
    destruct Hh as [<- | [<- | []]]; vm_compute in Hin;
      destruct Hin as [H | []]; discriminate.
Qed.

(** C3: the destructor defined in [src/User.cpp] has one [delete]
    statement, on line 18, and its operand is the name [firstName]; both
    declarations of class [User] give [firstName] the type [std::string],
    which is not a pointer type, so under either header the destructor
    deletes a non-pointer member. *)
Theorem dtor_deletes_non_pointer_firstName :
  def_deletes UserCpp.dtor = [(18, EVar "firstName")]
  /\ is_pointer (TNamed "std::string") = false
  /\ Forall (fun h => field_type h "firstName" = Some (TNamed "std::string")
                      /\ non_pointer_deletes h UserCpp.dtor
                         = [(18, EVar "firstName")])
            User_headers.
Proof.
  split; [ reflexivity | split; [ reflexivity | ] ].
  unfold User_headers. repeat constructor.
Qed.

(** C4: [include/User.h] declares [void setAge(float)], [src/User.cpp]
    defines [void User::setAge(int)]; the parameter types differ, and so
    do the two signatures. *)
Theorem setAge_parameter_type_mismatch :
  declared_signature IncludeUserH.User "setAge"
  = Some (mkSig TVoid [TFloat] false)
  /\ defined_signature UserCpp.defs "setAge"
     = Some (mkSig TVoid [TInt] false)
  /\ declared_signature IncludeUserH.User "setAge"
     <> defined_signature UserCpp.defs "setAge".
Proof.
  split; [ reflexivity | split; [ reflexivity | ] ].
  apply signature_eqb_neq. reflexivity.
Qed.

(** C5: [include/User.h] declares [std::string getFullName()] without
    [const], [src/User.cpp] defines [std::string User::getFullName() const];
    return type and parameters agree, the const qualification does not. *)
Theorem getFullName_const_mismatch :
  declared_signature IncludeUserH.User "getFullName"
  = Some (mkSig (TNamed "std::string") [] false)
  /\ defined_signature UserCpp.defs "getFullName"
     = Some (mkSig (TNamed "std::string") [] true)
  /\ declared_signature IncludeUserH.User "getFullName"
     <> defined_signature UserCpp.defs "getFullName".
Proof.
  split; [ reflexivity | split; [ reflexivity | ] ].
  apply signature_eqb_neq. reflexivity.
Qed.

(** C6: [include/User.h] declares [static User createDefaultUser()],
    [src/User.cpp] defines [int User::createDefaultUser()], whose body
    returns [User("Default", "User", 0, "default@example.com")]; the two
    return types differ. *)
Theorem createDefaultUser_return_type_mismatch :
  declared_static IncludeUserH.User "createDefaultUser" = Some true
  /\ option_map s_ret (declared_signature IncludeUserH.User "createDefaultUser")
     = Some (TNamed "User")
  /\ option_map s_ret (defined_signature UserCpp.defs "createDefaultUser")
     = Some TInt
  /\ def_returns UserCpp.createDefaultUser
     = [ EConstruct (TNamed "User")
           [ EStr "Default"; EStr "User"; EInt 0; EStr "default@example.com" ] ]
  /\ declared_signature IncludeUserH.User "createDefaultUser"
     <> defined_signature UserCpp.defs "createDefaultUser".
Proof.
  repeat (split; [ reflexivity | ]).
  apply signature_eqb_neq. reflexivity.
Qed.

(** C7: [main] constructs [user2] from the two arguments ["Jane"] and
    ["Smith"]; each header declares one constructor besides the copy
    constructor, of four parameters; no declared constructor takes two
    arguments, and [user2] is the one construction of [main] with such a
    mismatch. *)
Theorem user2_constructor_arity_mismatch :
  In (27, "user2", [ EStr "Jane"; EStr "Smith" ])
     (constructions "User" MainCpp.main_body)
  /\ List.length [ EStr "Jane"; EStr "Smith" ] = 2
  /\ Forall (fun h => noncopy_ctors h <> []
                      /\ Forall (fun m => ctor_arity m = Some 4) (noncopy_ctors h)
                      /\ arity_mismatches h MainCpp.main_body
                         = [ (27, "user2", [ EStr "Jane"; EStr "Smith" ]) ])
            User_headers.
Proof.
  split; [ right; left; reflexivity | split; [ reflexivity | ] ].
  unfold User_headers.
  repeat constructor; discriminate.
Qed.

(** C8: [include/User.h] declares [setAge], [getFullName], [getEmail],
    [getAge], [createDefaultUser], a copy constructor and a destructor;
    [src/User.h] declares none of them; the two declarations of class
    [User] are different. *)
Theorem headers_declare_different_members :
  Forall (fun n => declares_method IncludeUserH.User n = true
                   /\ declares_method SrcUserH.User n = false)
         [ "setAge"; "getFullName"; "getEmail"; "getAge"; "createDefaultUser" ]
  /\ declares_copy_ctor IncludeUserH.User = true
  /\ declares_copy_ctor SrcUserH.User = false
  /\ declares_dtor IncludeUserH.User = true
  /\ declares_dtor SrcUserH.User = false
  /\ IncludeUserH.User <> SrcUserH.User.
Proof.
  split; [ repeat constructor | ].
  repeat (split; [ reflexivity | ]).
  intros E. apply (f_equal (fun c => List.length (c_members c))) in E.
  discriminate.
Qed.

(** C2, as the code has it: in the execution of [main] in which
    [db.initialize()] returns true, [delete userPtr.get()] deletes the
    object that [userPtr] owns, and still owns afterwards, and the next
    statement reaches that object through [userPtr->getName()]: a use of
    the pointer after its deletion, on line 41, where the behaviour of
    the run becomes undefined. *)
Theorem main_uses_userPtr_after_delete_when_initialized :
  forall db_initialize : bool,
    db_initialize = true ->
    exists st,
      Exec.run_main db_initialize
      = Exec.Undefined 41 (Exec.UseAfterDelete 0) st
      /\ Exec.lookup "userPtr" (Exec.env st) = Exec.VUnique 0
      /\ Exec.deleted st = [ 0 ]
      /\ Exec.log st
         = [ Exec.EvMakeUnique 0; Exec.EvDelete 0; Exec.EvArrow 0 "getName" ]
      /\ Exec.use_after_delete (Exec.log st) 0 "getName".
Proof.
  intros b ->. eexists.
  split; [ vm_compute; reflexivity | ].
  repeat (split; [ vm_compute; reflexivity | ]).
  exists 1, 2. split; [ lia | split; reflexivity ].
Qed.

Lemma main_uses_userPtr_after_delete_when_initialized_witness :
  true = true
  /\ exists st,
       Exec.run_main true = Exec.Undefined 41 (Exec.UseAfterDelete 0) st
       /\ Exec.lookup "userPtr" (Exec.env st) = Exec.VUnique 0
       /\ Exec.deleted st = [ 0 ]
       /\ Exec.log st
          = [ Exec.EvMakeUnique 0; Exec.EvDelete 0; Exec.EvArrow 0 "getName" ]
       /\ Exec.use_after_delete (Exec.log st) 0 "getName".
Proof.
  split.
  - reflexivity.
  - apply (main_uses_userPtr_after_delete_when_initialized true).
    reflexivity.
Defined.

(** C2, as the claim has it, fails: [main] has more than one execution,
    and in the one in which [db.initialize()] returns false it returns 1
    on line 20, before [userPtr] is created: nothing is deleted and no
    pointer is used after a deletion. *)
Lemma main_returns_early_without_use_after_delete :
  Exec.run_main false <> Exec.run_main true
  /\ (exists st, Exec.run_main false = Exec.Returned (Exec.VInt 1) st
                 /\ Exec.next st = 0
                 /\ Exec.log st = [])
  /\ ~ (exists l m,
          Exec.use_after_delete (Exec.trace (Exec.run_main false)) l m).
Proof.
  split; [ | split ].
  - vm_compute. discriminate.
  - eexists. split; [ vm_compute; reflexivity | split; reflexivity ].
  - intros [l [m [i [j [_ [H _]]]]]].
    vm_compute in H. destruct i; discriminate H.
Qed.

(** C9: the copy constructor defined in [src/User.cpp] initialises
    [firstName], [lastName] and [age] from the members of the same name of
    [other] and has an empty body; so for every [u] the copy has the
    first name, last name and age of [u] and an empty [email], which
    differs from the one of [u] whenever that one is not empty. *)
Theorem copy_constructor_drops_email :
  def_inits UserCpp.copy_ctor
  = [ ("firstName", EMember (EVar "other") Dot "firstName");
      ("lastName", EMember (EVar "other") Dot "lastName");
      ("age", EMember (EVar "other") Dot "age") ]
  /\ def_body UserCpp.copy_ctor = []
  /\ forall u : User,
       firstName (User_copy u) = firstName u
       /\ lastName (User_copy u) = lastName u
       /\ age (User_copy u) = age u
       /\ email (User_copy u) = EmptyString
       /\ (email u <> EmptyString -> email (User_copy u) <> email u).
Proof.
  split; [ reflexivity | split; [ reflexivity | ] ].
  intros u. repeat (split; [ reflexivity | ]).
  simpl. intros H E. apply H. symmetry. exact E.
Qed.

Lemma copy_constructor_drops_email_witness :
  email (User_ctor "John" "Doe" 25 "invalid@email") <> EmptyString
  /\ email (User_copy (User_ctor "John" "Doe" 25 "invalid@email"))
     <> email (User_ctor "John" "Doe" 25 "invalid@email").
Proof.
  split.
  - simpl. discriminate.
  - apply (proj2 (proj2 copy_constructor_drops_email)
             (User_ctor "John" "Doe" 25 "invalid@email")).
    simpl. discriminate.
Defined.

(** C10: [setAge] stores its argument in [age] whatever its sign, so
    [getAge] after [setAge n] returns [n]; a negative argument in addition
    assigns [false] to the undeclared [isValid], and nothing else. *)
Theorem getAge_after_setAge :
  forall (u : User) (n : Z),
    getAge (setAge n u) = n
    /\ undeclared (setAge n u)
       = if (n <? 0)%Z
         then ("isValid", StrayBool false) :: undeclared u
         else undeclared u.
Proof.
  intros u n. unfold setAge, getAge.
  destruct (n <? 0)%Z; split; reflexivity.
Qed.

(* ================================================================== *)
(** ** Further properties of the member functions *)

Import UserData.

Lemma length_app (a b : string) :
  String.length (a ++ b) = String.length a + String.length b.
Proof.
  induction a as [ | c a IH ]; simpl; [ reflexivity | rewrite IH; reflexivity ].
Qed.

Lemma append_assoc (a b c : string) : (a ++ b) ++ c = a ++ (b ++ c).
Proof.
  induction a as [ | x a IH ]; simpl; [ reflexivity | rewrite IH; reflexivity ].
Qed.

Lemma User_copy_fixed (u : User) : User_copy (User_copy u) = User_copy u.
Proof. reflexivity. Qed.

(** X1: what the four-parameter constructor is given is what the getters
    return: [getName] the first name, [getEmail] the email, [getAge] the
    age, [getFullName] the first and the last name with a space between. *)
Theorem getters_after_constructor :
  forall (first last : string) (userAge : Z) (userEmail : string),
    getName (User_ctor first last userAge userEmail) = first
    /\ getEmail (User_ctor first last userAge userEmail) = userEmail
    /\ getAge (User_ctor first last userAge userEmail) = userAge
    /\ getFullName (User_ctor first last userAge userEmail)
       = first ++ " " ++ last.
Proof. intros. repeat split. Qed.

(** X2: the full name is one character longer than the two names
    together, begins with what [getName] returns and is never empty, not
    even for a user without names. *)
Theorem getFullName_shape :
  forall u : User,
    String.length (getFullName u)
    = String.length (getName u) + 1 + String.length (lastName u)
    /\ String.prefix (getName u) (getFullName u) = true
    /\ getFullName u <> EmptyString.
Proof.
  intros u. unfold getFullName, getName.
  split; [ | split ].
  - rewrite length_app. simpl. lia.
  - apply prefix_app. exists (" " ++ lastName u). reflexivity.
  - intros E. apply (f_equal String.length) in E.
    rewrite length_app in E. simpl in E. lia.
Qed.

(** X3: the full name does not tell where the first name ends: a middle
    part counted to the first name or to the last name gives the same
    full name, while [getName] differs. *)
Theorem getFullName_ambiguous :
  forall (first middle last : string) (a : Z) (e : string),
    getFullName (User_ctor (first ++ " " ++ middle) last a e)
    = getFullName (User_ctor first (middle ++ " " ++ last) a e)
    /\ getName (User_ctor (first ++ " " ++ middle) last a e)
       <> getName (User_ctor first (middle ++ " " ++ last) a e).
Proof.
  intros first middle last a e. unfold getFullName, getName. simpl. split.
  - rewrite !append_assoc. reflexivity.
  - intros E. apply (f_equal String.length) in E.
    rewrite !length_app in E. simpl in E. lia.
Qed.

(** X4: [setAge] changes the age only: whatever the argument, [getName],
    [getEmail] and [getFullName] return what they returned before. *)
Theorem setAge_keeps_other_getters :
  forall (u : User) (n : Z),
    getName (setAge n u) = getName u
    /\ getEmail (setAge n u) = getEmail u
    /\ getFullName (setAge n u) = getFullName u.
Proof.
  intros u n. unfold setAge, getName, getEmail, getFullName.
  destruct (n <? 0)%Z; repeat split.
Qed.

(** X5: writing back the age that [getAge] returns changes nothing, as
    long as that age is not negative. *)
Theorem setAge_of_getAge :
  forall u : User, (0 <= getAge u)%Z -> setAge (getAge u) u = u.
Proof.
  intros [f l a e w] H. unfold getAge in H. simpl in H.
  unfold setAge, getAge. simpl.
  destruct (a <? 0)%Z eqn:Ha; [ apply Z.ltb_lt in Ha; lia | reflexivity ].
Qed.

Lemma setAge_of_getAge_witness :
  (0 <= getAge (User_ctor "John" "Doe" 25 "invalid@email"))%Z
  /\ setAge (getAge (User_ctor "John" "Doe" 25 "invalid@email"))
            (User_ctor "John" "Doe" 25 "invalid@email")
     = User_ctor "John" "Doe" 25 "invalid@email".
Proof.
  split.
  - simpl. lia.
  - apply (setAge_of_getAge (User_ctor "John" "Doe" 25 "invalid@email")).
    simpl. lia.
Defined.

(** X6: a copy of a copy is the copy: however many times an object goes
    through the copy constructor, the result is that of one copy, with
    the name, the full name and the age of the original. *)
Theorem copies_of_copies :
  forall (u : User) (k : nat),
    Nat.iter (S k) User_copy u = User_copy u
    /\ getName (Nat.iter (S k) User_copy u) = getName u
    /\ getFullName (Nat.iter (S k) User_copy u) = getFullName u
    /\ getAge (Nat.iter (S k) User_copy u) = getAge u.
Proof.
  intros u k.
  assert (E : Nat.iter (S k) User_copy u = User_copy u).
  { induction k as [ | k IH ]; [ reflexivity | ].
    change (Nat.iter (S (S k)) User_copy u)
      with (User_copy (Nat.iter (S k) User_copy u)).
    rewrite IH. apply User_copy_fixed. }
  rewrite E. repeat split.
Qed.

(** X7: copying and setting the age can be done in either order: the two
    results have the same four data members. *)
Theorem copy_commutes_with_setAge :
  forall (u : User) (n : Z),
    same_data (User_copy (setAge n u)) (setAge n (User_copy u)).
Proof.
  intros u n. unfold same_data, setAge.
  destruct (n <? 0)%Z; repeat split.
Qed.

(* ================================================================== *)
(** ** Further properties of the four files *)

Import Unit Scope.

(** X8: over all of [src/User.cpp], the members reached through [this->]
    that class [User] does not declare are [id], on line 7, and
    [isValid], on line 37 in the negative branch of [setAge], under
    either header; [generateId], called on line 7, is no member function
    of the class either. *)
Theorem undeclared_names_of_User_cpp :
  Forall (fun h =>
            flat_map (undeclared_accesses h) UserCpp.defs
            = [ (7, "id"); (37, "isValid") ]
            /\ flat_map (undeclared_calls h) UserCpp.defs
               = [ (7, "generateId") ])
         User_headers
  /\ line_at UserCpp.text 37 = Some "        this->isValid = false;".
Proof.
  split; [ | reflexivity ].
  unfold User_headers. repeat constructor.
Qed.

(** X9: of the nine definitions of [src/User.cpp], six agree with their
    declaration in [include/User.h] (the two constructors, the
    destructor, [getName], [getEmail], [getAge]) and three differ from it
    ([setAge], [getFullName], [createDefaultUser]); none lacks a
    declaration. *)
Theorem definitions_against_include_header :
  map (fun d => (def_label IncludeUserH.User d, def_status IncludeUserH.User d))
      UserCpp.defs
  = [ ("User", Agrees); ("User", Agrees); ("~User", Agrees);
      ("getName", Agrees); ("getEmail", Agrees); ("getAge", Agrees);
      ("setAge", Differs); ("getFullName", Differs);
      ("createDefaultUser", Differs) ].
Proof. reflexivity. Qed.

(** X10: against [src/User.h], only the four-parameter constructor and
    [getName] have a declaration, which they agree with; the other seven
    definitions of [src/User.cpp] define members that header does not
    declare. *)
Theorem definitions_against_src_header :
  map (fun d => (def_line d, def_status SrcUserH.User d)) UserCpp.defs
  = [ (4, Agrees); (10, NotDeclared); (16, NotDeclared); (21, Agrees);
      (25, NotDeclared); (29, NotDeclared); (34, NotDeclared);
      (43, NotDeclared); (48, NotDeclared) ]
  /\ map (def_label SrcUserH.User)
         (filter (fun d => match def_status SrcUserH.User d with
                           | Agrees => true
                           | _ => false
                           end)
                 UserCpp.defs)
     = [ "User"; "getName" ].
Proof. split; reflexivity. Qed.

(** X11: [src/User.h] is a part of [include/User.h]: the data members are
    the same, and each member function it declares is declared in the
    same way there; so whatever definition agrees with [src/User.h]
    agrees with [include/User.h]. *)
Theorem src_header_within_include_header :
  c_name SrcUserH.User = c_name IncludeUserH.User
  /\ c_fields SrcUserH.User = c_fields IncludeUserH.User
  /\ Forall (fun m => In m (c_members IncludeUserH.User))
            (c_members SrcUserH.User)
  /\ forall d : member_def,
       def_status SrcUserH.User d = Agrees ->
       def_status IncludeUserH.User d = Agrees.
Proof.
  split; [ reflexivity | split; [ reflexivity | split ] ].
  - constructor; [ left; reflexivity | ].
    constructor; [ do 3 right; left; reflexivity | constructor ].
  - intros [ l ps inits body | l body | l r n ps k body ]; unfold def_status.
    + unfold declares_ctor. cbn -[ctypes_eqb].
      destruct (ctypes_eqb _ _); [ reflexivity | discriminate ].
    + cbn. discriminate.
    + unfold declared_signature, find_decl.
      cbn -[String.eqb signature_eqb].
      destruct (String.eqb "getName" n); [ | discriminate ].
      cbn -[signature_eqb]. intros H. exact H.
Qed.

Lemma src_header_within_include_header_witness :
  def_status SrcUserH.User UserCpp.getName = Agrees
  /\ def_status IncludeUserH.User UserCpp.getName = Agrees.
Proof.
  split.
  - reflexivity.
  - apply (proj2 (proj2 (proj2 src_header_within_include_header))
             UserCpp.getName).
    reflexivity.
Defined.

(** X12: of the seven member accesses and member function calls of
    [main], three are on objects of class [User]: [user.getFullName()]
    on line 34 and [user.birthYear] on line 35, [user] being a
    [const User&], and [userPtr->getName()] on line 41.  Neither header declares [birthYear]; [getFullName] is not
    declared by [src/User.h], and [include/User.h] declares it without
    [const], so that it cannot be called on a const object; the call of
    [getName], const in both headers, is the one of the three that is
    allowed. *)
Theorem member_errors_of_main :
  map snd (member_nodes MainCpp.main_body)
  = [ (EVar "db", Dot, "initialize");
      (EVar "users", Dot, "push_back"); (EVar "users", Dot, "push_back");
      (EVar "user", Dot, "getFullName"); (EVar "user", Dot, "birthYear");
      (EVar "userPtr", Dot, "get"); (EVar "userPtr", Arrow, "getName") ]
  /\ Forall (fun h =>
            map snd (member_refs h MainCpp.main_body)
            = [ ("user", "getFullName"); ("user", "birthYear");
                ("userPtr", "getName") ])
         User_headers
  /\ map snd (member_errors IncludeUserH.User MainCpp.main_body)
     = [ ("user", DiscardsConst "getFullName");
         ("user", NoSuchMember "birthYear") ]
  /\ map snd (member_errors SrcUserH.User MainCpp.main_body)
     = [ ("user", NoSuchMember "getFullName");
         ("user", NoSuchMember "birthYear") ]
  /\ lines_containing "user.getFullName()" MainCppText.text = [ 34 ]
  /\ lines_containing "user.birthYear" MainCppText.text = [ 35 ]
  /\ lines_containing "userPtr->getName()" MainCppText.text = [ 41 ].
Proof.
  split; [ reflexivity | ].
  split; [ unfold User_headers; repeat constructor | ].
  repeat split.
Qed.

(** X13: of the names that [main] uses as variables or as functions
    called without qualification, [undefinedVersion], on line 10, is the
    one that no declaration in scope introduces; every other such name is
    qualified with [std::] or is one of the seven local variables, used
    after its declaration. *)
Theorem unknown_names_of_main :
  unknown_names MainCpp.main_body = [ (10, "undefinedVersion") ]
  /\ lines_containing "undefinedVersion" MainCppText.text = [ 10 ]
  /\ flat_map stmt_locals MainCpp.main_body
     = [ "port"; "db"; "users"; "user1"; "user2"; "user"; "userPtr" ]
  /\ ~ In "undefinedVersion" (flat_map stmt_locals MainCpp.main_body).
Proof.
  split; [ reflexivity | split; [ reflexivity | split; [ reflexivity | ] ] ].
  cbn. intros H.
  repeat (destruct H as [H | H]; [ discriminate H | ]).
  exact H.
Qed.


(** X15: each of the seven [// Error:] comments of [src/User.cpp] labels
    a defect.  Under [include/User.h], the line after the comments on
    lines 6, 17, 33, 36, 42 and 47 is one on which a check finds a
    defect; the comment on line 12 is inside the copy constructor, the
    one constructor that leaves a data member, [email], without
    initialiser. *)
Theorem error_comments_label_defects :
  lines_containing "// Error:" UserCpp.text = [ 6; 12; 17; 33; 36; 42; 47 ]
  /\ Forall (fun n =>
               In (S n) (map fst (Defects.unit_defects IncludeUserH.User
                                                       UserCpp.defs))
               \/ (def_line UserCpp.copy_ctor < n < def_line UserCpp.dtor
                   /\ omitted_fields IncludeUserH.User UserCpp.copy_ctor
                      = [ "email" ]))
            (lines_containing "// Error:" UserCpp.text)
  /\ map (omitted_fields IncludeUserH.User) UserCpp.defs
     = [ []; [ "email" ]; []; []; []; []; []; []; [] ]
  /\ Defects.unit_defects IncludeUserH.User UserCpp.defs
     = [ (7, Defects.UndeclaredMember "id");
         (7, Defects.UndeclaredFunction "generateId");
         (18, Defects.DeleteOfNonPointer (EVar "firstName"));
         (34, Defects.DisagreesWithDeclaration);
         (37, Defects.UndeclaredMember "isValid");
         (43, Defects.DisagreesWithDeclaration);
         (48, Defects.DisagreesWithDeclaration);
         (49, Defects.ReturnsWrongType
                (EConstruct (TNamed "User")
                   [ EStr "Default"; EStr "User"; EInt 0;
                     EStr "default@example.com" ])) ].
Proof.
  assert (EL : lines_containing "// Error:" UserCpp.text
               = [ 6; 12; 17; 33; 36; 42; 47 ])
    by (vm_compute; reflexivity).
  assert (ED : map fst (Defects.unit_defects IncludeUserH.User UserCpp.defs)
               = [ 7; 7; 18; 34; 37; 43; 48; 49 ])
    by (vm_compute; reflexivity).
  split; [ exact EL | split; [ | split; vm_compute; reflexivity ] ].
  rewrite EL, ED.
  repeat (apply Forall_cons;
          [ first [ left; simpl; tauto
                  | right; split; [ simpl; lia | reflexivity ] ] | ]).
  apply Forall_nil.
Qed.
